(** * img-compressor: the quality/resize search of [compress.py]

    A shallow embedding of [src/compress.py].  Pillow and [pathlib] are
    external collaborators: their operations are the fields of the classes
    [Pillow] and [Pathlib], fallible ones returning [exception + _].  The
    file system is a finite map from paths to file contents, threaded
    through a small state-and-exception monad.  The [while True] loop is a
    step function iterated under a fuel bound; running out of fuel is an
    outcome of its own and never stands for a result.

    Python's [float] scale factor is carried as an exact rational and
    [int(width * resize_step)] as the truncation of the exact product.
    The binary64 product is rounded before it is truncated, so the two can
    differ by one ([int(100 * 0.29)] is 28), and Python raises where the
    product is infinite.  What is proved of the scaled dimensions is
    therefore their order ([0 <= int(n * f) < n] for a factor in (0,1),
    [int(n * 1.0) = n]), not their value. *)

From Stdlib Require Import ZArith QArith Qround Lia List Ascii String.
From stdpp Require Import gmap strings pretty.

Local Open Scope string_scope.
Local Open Scope Z_scope.

(** ** Exceptions, the file system and the monad *)

Inductive exception : Type :=
  | FileNotFoundError (msg : string)
  | NotADirectoryError (msg : string)
  | UnidentifiedImageError
  | OSError (msg : string).

Definition bytes := list Byte.byte.

(** [nbytes b] is [len(b)] as a Python integer. *)
Definition nbytes (b : bytes) : Z := Z.of_nat (length b).

(** The part of the world the program touches.  [writes] is a ghost trace
    of the [write_bytes] calls, oldest first. *)
Record World : Type := mkWorld {
  files : gmap string bytes;
  dirs : gset string;
  writes : list (string * bytes)
}.

Inductive outcome (A : Type) : Type :=
  | Returns (a : A) (w : World)
  | Raises (e : exception) (w : World)
  | OutOfFuel.

Arguments Returns {A} a w.
Arguments Raises {A} e w.
Arguments OutOfFuel {A}.

Definition M (A : Type) : Type := World -> outcome A.

Definition ret {A} (a : A) : M A := fun w => Returns a w.

Definition raise {A} (e : exception) : M A := fun w => Raises e w.

Definition bind {A B} (m : M A) (k : A -> M B) : M B :=
  fun w =>
    match m w with
    | Returns a w' => k a w'
    | Raises e w' => Raises e w'
    | OutOfFuel => OutOfFuel
    end.

Notation "'let*' x ':=' m 'in' k" := (bind m (fun x => k))
  (at level 10, x name, m at level 100, k at level 200).

(** A library call that either raises or returns, with no effect on the
    world. *)
Definition lift {A} (r : exception + A) : M A :=
  match r with
  | inl e => raise e
  | inr a => ret a
  end.

(** [path.stat().st_size] *)
Definition stat_st_size (path : string) : M Z :=
  fun w =>
    match files w !! path with
    | Some b => Returns (nbytes b) w
    | None => Raises (FileNotFoundError path) w
    end.

(** The bytes [Image.open(path)] reads. *)
Definition read_bytes (path : string) : M bytes :=
  fun w =>
    match files w !! path with
    | Some b => Returns b w
    | None => Raises (FileNotFoundError path) w
    end.

(** The world after [write_bytes]. *)
Definition written (image_path : string) (buffer : bytes) (w : World)
    : World :=
  {| files := <[image_path := buffer]> (files w);
     dirs := dirs w;
     writes := writes w ++ [(image_path, buffer)] |}.

(** [path.write_bytes(data)] *)
Definition write_bytes (path : string) (data : bytes) : M unit :=
  fun w => Returns tt (written path data w).

(** ** Python helpers *)

(** [int(x)] on an exact rational: truncation toward zero. *)
Definition py_int (x : Q) : Z := Z.quot (Qnum x) (Zpos (Qden x)).

(** [int(n * f)] for an integer [n] and the scale factor [f], on the
    exact product: an idealisation of the binary64 product, which it
    matches in order but not always in value. *)
Definition int_mul (n : Z) (f : Q) : Z := py_int (inject_Z n * f).

Definition upper_ascii (c : ascii) : ascii :=
  let n := nat_of_ascii c in
  if (97 <=? n)%nat && (n <=? 122)%nat then ascii_of_nat (n - 32) else c.

(** [s.upper()], on the ASCII letters. *)
Fixpoint upper (s : string) : string :=
  match s with
  | EmptyString => EmptyString
  | String c s' => String (upper_ascii c) (upper s')
  end.

(** [not s] for a string: the empty string is the only false one. *)
Definition str_is_empty (s : string) : bool :=
  match s with
  | EmptyString => true
  | String _ _ => false
  end.

(** ** Data model *)

Record CompressResult : Type := mkCompressResult {
  path : string;
  original_size : Z;
  final_size : Z;
  succeeded : bool;
  note : string
}.

Definition TARGET_SIZE_DEFAULT : Z := 1000000.

Definition note_cannot_compress : string :=
  "无法进一步压缩，已达到最小尺寸或质量。".

Definition note_unknown_problem : string :=
  "压缩过程中出现未知问题。".

Definition note_best_effort : string :=
  "已尽力压缩，但仍超过目标大小。".

Definition note_with_final_size (n : string) (final : Z) : string :=
  n ++ " (最终大小 " ++ pretty final ++ " bytes)".

Definition note_converted (img_format : string) : string :=
  "原始格式 " ++ img_format ++ " 已转换为 JPEG。".

(** The note of the result (lines 100-107), from the success flag, the
    size of the rewritten file, the note the loop left and the format of
    the original. *)
Definition final_note (success : bool) (final_size : Z)
    (note img_format : string) : string :=
  let note1 :=
    if negb success && str_is_empty note then note_best_effort else note in
  let note2 :=
    if success && negb (str_is_empty note1)
    then note_with_final_size note1 final_size else note1 in
  if str_is_empty note2 && negb (upper img_format =? "JPEG")%string
  then note_converted img_format else note2.

(** ** The engine, over an arbitrary Pillow *)

Inductive Resampling : Type := NEAREST | BILINEAR | BICUBIC | LANCZOS.

(** The keyword arguments [_save_to_buffer] passes to [Image.save]. *)
Record save_kwargs : Type := mkSaveKwargs {
  kw_format : string;
  kw_quality : Z;
  kw_optimize : bool;
  kw_progressive : option bool
}.

(** The operations of Pillow the program calls: [Image.open] on the bytes
    of a file, [img.format], [img.convert], [img.size], [img.save] into a
    fresh buffer and [img.resize]. *)
Class Pillow : Type := {
  Image : Type;
  Image_open : bytes -> exception + Image;
  Image_format : Image -> option string;
  Image_convert : Image -> string -> exception + Image;
  Image_size : Image -> Z * Z;
  Image_save : Image -> save_kwargs -> exception + bytes;
  Image_resize : Image -> Z * Z -> Resampling -> exception + Image
}.

(** The operations of [pathlib] the program calls:
    [Path(directory).expanduser().resolve()], [directory.glob(pattern)] and
    [directory.rglob(pattern)]. *)
Class Pathlib : Type := {
  resolve : string -> string;
  glob : World -> string -> string -> list string;
  rglob : World -> string -> string -> list string
}.

Section Engine.

Context {PIL : Pillow} {PL : Pathlib}.

(** The local variables of the search loop of [_compress_image]. *)
Record LoopState : Type := mkLoopState {
  working_img : Image;
  width : Z;
  height : Z;
  quality : Z;
  last_buffer : option bytes;
  loop_note : string
}.

(** How one pass through the loop body ends: [continue] (or falling off
    the end of the body), or [break]. *)
Inductive control : Type :=
  | Continue (s : LoopState)
  | Break (s : LoopState).

(** The paths the generator yields, pattern by pattern.  The listing is
    taken in the world of the call: rewriting a file changes its content,
    not its name. *)
Definition _iter_image_files (directory : string) (recursive : bool)
    : M (list string) :=
  fun w =>
    let patterns := ["*.jpg"; "*.jpeg"; "*.png"; "*.webp"; "*.bmp"] in
    Returns
      (if recursive
       then flat_map (fun pattern => rglob w directory pattern) patterns
       else flat_map (fun pattern => glob w directory pattern) patterns)
      w.

Definition _save_to_buffer (image : Image) (format_hint : string)
    (quality : Z) : exception + bytes :=
  let u := upper format_hint in
  Image_save image
    {| kw_format := format_hint;
       kw_quality := quality;
       kw_optimize := true;
       kw_progressive :=
         if (u =? "JPEG")%string || (u =? "JPG")%string
         then Some true else None |}.

Section Search.

Variables (target_size min_quality quality_step : Z) (resize_step : Q).

(** One pass through the body of [while True] (lines 65-85). *)
Definition loop_body (s : LoopState)
    : exception + control :=
  match _save_to_buffer (working_img s) "JPEG" (quality s) with
  | inl e => inl e
  | inr buffer =>
      let size := nbytes buffer in
      if size <=? target_size then
        inr (Break (mkLoopState (working_img s) (width s) (height s)
                      (quality s) (Some buffer) (loop_note s)))
      else if quality s >? min_quality then
        inr (Continue
               (mkLoopState (working_img s) (width s) (height s)
                  (Z.max min_quality (quality s - quality_step))
                  (last_buffer s) (loop_note s)))
      else
        let new_width := Z.max 1 (int_mul (width s) resize_step) in
        let new_height := Z.max 1 (int_mul (height s) resize_step) in
        if (new_width =? width s) && (new_height =? height s) then
          inr (Break (mkLoopState (working_img s) (width s) (height s)
                        (quality s) (Some buffer) note_cannot_compress))
        else
          match Image_resize (working_img s) (new_width, new_height)
                  LANCZOS with
          | inl e => inl e
          | inr resized =>
              inr (Continue
                     (mkLoopState resized
                        (fst (Image_size resized))
                        (snd (Image_size resized))
                        (Z.min 95 (Z.max min_quality (quality s)))
                        (last_buffer s) (loop_note s)))
          end
  end.

(** The loop, cut off after [fuel] passes. *)
Fixpoint while_true (fuel : nat) (s : LoopState)
    : M (LoopState) :=
  match fuel with
  | O => fun _ => OutOfFuel
  | S fuel' =>
      let* c := lift (loop_body s) in
      match c with
      | Break s' => ret s'
      | Continue s' => while_true fuel' s'
      end
  end.

(** The state the loop is entered in (lines 59-62). *)
Definition initial_state (working : Image) : LoopState :=
  mkLoopState working (fst (Image_size working))
    (snd (Image_size working)) 95 None "".

(** What follows the loop (lines 87-98 and 109-115, around
    [final_note]). *)
Definition conclude (image_path : string) (original_size : Z)
    (img_format : string) (s : LoopState) : M CompressResult :=
  match last_buffer s with
  | None =>
      ret (mkCompressResult image_path original_size original_size
             false note_unknown_problem)
  | Some buffer =>
      let* _ := write_bytes image_path buffer in
      let* final_size := stat_st_size image_path in
      let success := final_size <=? target_size in
      ret (mkCompressResult image_path original_size final_size success
             (final_note success final_size (loop_note s) img_format))
  end.

End Search.

(** [img.format or "JPEG"] *)
Definition format_or_JPEG (fmt : option string) : string :=
  match fmt with
  | Some f => if str_is_empty f then "JPEG" else f
  | None => "JPEG"
  end.

Definition _compress_image (fuel : nat) (image_path : string)
    (target_size min_quality quality_step : Z) (resize_step : Q)
    : M CompressResult :=
  let* original_size := stat_st_size image_path in
  let* data := read_bytes image_path in
  let* img := lift (Image_open data) in
  let img_format := format_or_JPEG (Image_format img) in
  let* working := lift (Image_convert img "RGB") in
  let* s := while_true target_size min_quality quality_step resize_step
              fuel (initial_state working) in
  conclude target_size image_path original_size img_format s.

(** The [for] loop of [compress_directory] (lines 146-154). *)
Fixpoint for_image_files (fuel : nat) (image_files : list string)
    (target_size min_quality quality_step : Z) (resize_step : Q)
    (results : list CompressResult) : M (list CompressResult) :=
  match image_files with
  | [] => ret results
  | image_file :: rest =>
      let* result := _compress_image fuel image_file target_size
                       min_quality quality_step resize_step in
      for_image_files fuel rest target_size min_quality quality_step
        resize_step (results ++ [result])
  end.

Definition path_exists (p : string) : M bool :=
  fun w => Returns (bool_decide (p ∈ dirs w ∨ is_Some (files w !! p))) w.

Definition path_is_dir (p : string) : M bool :=
  fun w => Returns (bool_decide (p ∈ dirs w)) w.

Definition compress_directory (fuel : nat) (directory : string)
    (target_size : Z) (recursive : bool)
    (min_quality quality_step : Z) (resize_step : Q)
    : M (list CompressResult) :=
  let dir_path := resolve directory in
  let* present := path_exists dir_path in
  if negb present then
    raise (FileNotFoundError ("目录不存在: " ++ dir_path))
  else
    let* is_dir := path_is_dir dir_path in
    if negb is_dir then
      raise (NotADirectoryError ("路径不是目录: " ++ dir_path))
    else
      let* image_files := _iter_image_files dir_path recursive in
      for_image_files fuel image_files target_size min_quality
        quality_step resize_step [].

End Engine.

(** ** Runs of the loop, pass by pass *)

Section Passes.

Context {PIL : Pillow}.

Variables (target_size min_quality quality_step : Z) (resize_step : Q).

(** The loop variables at the start of pass [n] (counted from 0) of a run
    entered in [s], when the run gets that far. *)
Fixpoint nth_pass (n : nat) (s : LoopState) : option LoopState :=
  match n with
  | O => Some s
  | S n' =>
      match nth_pass n' s with
      | Some s' =>
          match loop_body target_size min_quality quality_step resize_step
                  s' with
          | inr (Continue s'') => Some s''
          | _ => None
          end
      | None => None
      end
  end.

(** The measure that bounds the number of passes: the distance of the
    dimensions from 1x1, weighted by the width of the quality range. *)
Definition dim_distance (s : LoopState) : Z :=
  Z.abs (width s - 1) + Z.abs (height s - 1).

Definition quality_range : Z := Z.max 0 (95 - min_quality).

Definition passes_bound (s : LoopState) : Z :=
  dim_distance s * (quality_range + 1)
  + Z.max 0 (quality s - min_quality).

End Passes.

(** ** Failures of the library on one file

    [image_failure fuel ... image_path w e]: on the file at [image_path] in
    the world [w], one of the library calls of [_compress_image] raises [e]
    within [fuel] passes: [Image.open], [img.convert], the [save] of some
    pass, or the [resize] of some pass that got as far as resizing. *)
Inductive image_failure {PIL : Pillow} (fuel : nat)
    (target_size min_quality quality_step : Z) (resize_step : Q)
    (image_path : string) (w : World) (e : exception) : Prop :=
  | open_fails (data : bytes) :
      files w !! image_path = Some data ->
      Image_open data = inl e ->
      image_failure fuel target_size min_quality quality_step resize_step
        image_path w e
  | convert_fails (data : bytes) (img : Image) :
      files w !! image_path = Some data ->
      Image_open data = inr img ->
      Image_convert img "RGB" = inl e ->
      image_failure fuel target_size min_quality quality_step resize_step
        image_path w e
  | save_fails (data : bytes) (img working : Image) (n : nat)
      (s : LoopState) :
      files w !! image_path = Some data ->
      Image_open data = inr img ->
      Image_convert img "RGB" = inr working ->
      (n < fuel)%nat ->
      nth_pass target_size min_quality quality_step resize_step n
        (initial_state working) = Some s ->
      _save_to_buffer (working_img s) "JPEG" (quality s) = inl e ->
      image_failure fuel target_size min_quality quality_step resize_step
        image_path w e
  | resize_fails (data : bytes) (img working : Image) (n : nat)
      (s : LoopState) (buffer : bytes) :
      files w !! image_path = Some data ->
      Image_open data = inr img ->
      Image_convert img "RGB" = inr working ->
      (n < fuel)%nat ->
      nth_pass target_size min_quality quality_step resize_step n
        (initial_state working) = Some s ->
      _save_to_buffer (working_img s) "JPEG" (quality s) = inr buffer ->
      target_size < nbytes buffer ->
      quality s <= min_quality ->
      (Z.max 1 (int_mul (width s) resize_step),
       Z.max 1 (int_mul (height s) resize_step)) <> (width s, height s) ->
      Image_resize (working_img s)
        (Z.max 1 (int_mul (width s) resize_step),
         Z.max 1 (int_mul (height s) resize_step)) LANCZOS = inl e ->
      image_failure fuel target_size min_quality quality_step resize_step
        image_path w e.

(** ** What the engine relies on from Pillow

    [img.resize(size, ...)] returns an image of the requested size, for
    sizes of at least one pixel on each axis. *)
Definition resize_returns_requested_size (PIL : Pillow) : Prop :=
  forall (img resized : Image) (w h : Z) (filter : Resampling),
    1 <= w -> 1 <= h ->
    Image_resize img (w, h) filter = inr resized ->
    Image_size resized = (w, h).

(** A decoded image has at least one pixel on each axis. *)
Definition positive_size {PIL : Pillow} (img : Image) : Prop :=
  1 <= fst (Image_size img) /\ 1 <= snd (Image_size img).

(** What holds of the loop variables at the start of every pass, when the
    quality step is not negative. *)
Definition loop_inv {PIL : Pillow} (min_quality : Z) (s : LoopState)
    : Prop :=
  quality s <= 95 /\
  (min_quality <= 95 -> min_quality <= quality s) /\
  (95 < min_quality -> quality s = 95) /\
  1 <= width s /\ 1 <= height s.

(** ** The report and the command line *)

(** [f"{x:.0f}"] on an exact rational: the nearest integer, a tie going to
    the even one. *)
Definition round_half_even (x : Q) : Z :=
  let f := Qfloor x in
  match (x - inject_Z f ?= 1 # 2)%Q with
  | Lt => f
  | Gt => f + 1
  | Eq => if Z.even f then f else f + 1
  end.

Definition format_0f (x : Q) : string := pretty (round_half_even x).

(** The [for unit in (...)] loop of [_format_size] over the units still to
    try, and the fall-through to TB.  [size /= 1024] is the exact quotient,
    which is what the float holds for sizes below 2^53. *)
Fixpoint format_size_units (units : list string) (size : Q) : string :=
  match units with
  | [] => format_0f size ++ "TB"
  | unit :: rest =>
      match (size ?= 1024)%Q with
      | Lt => format_0f size ++ unit
      | _ => format_size_units rest (size / 1024)%Q
      end
  end.

Definition _format_size (size : Z) : string :=
  format_size_units ["B"; "KB"; "MB"; "GB"] (inject_Z size).

(** The line [_print_report] prints for one result. *)
Definition report_line (res : CompressResult) : string :=
  let status := if succeeded res then "成功" else "未达标" in
  let note_part :=
    if str_is_empty (note res) then "" else " | " ++ note res in
  status ++ ": " ++ path res ++ " | 原始 "
    ++ _format_size (original_size res) ++ " -> 最终 "
    ++ _format_size (final_size res) ++ note_part.

(** The lines [_print_report] prints, first to last. *)
Definition _print_report (results : list CompressResult) (target_size : Z)
    : list string :=
  ("目标大小: " ++ _format_size target_size) :: map report_line results.



(** The world an outcome leaves behind, when there is one. *)
Definition outcome_world {A : Type} (o : outcome A) : option World :=
  match o with
  | Returns _ w => Some w
  | Raises _ w => Some w
  | OutOfFuel => None
  end.

(** ** A small Pillow to run the engine on

    An image file is three bytes: a format tag, the width and the height;
    encoding an image of [w] x [h] pixels at quality [q] takes [w * h * q]
    bytes. *)

Record ToyImage : Type := mkToyImage {
  toy_width : Z;
  toy_height : Z;
  toy_format : option string
}.

Definition toy_open (data : bytes) : exception + ToyImage :=
  match data with
  | [tag; w; h] =>
      let w' := Z.of_N (Byte.to_N w) in
      let h' := Z.of_N (Byte.to_N h) in
      if (1 <=? w') && (1 <=? h') then
        match Byte.to_N tag with
        | 0%N => inr (mkToyImage w' h' (Some "JPEG"))
        | 1%N => inr (mkToyImage w' h' (Some "PNG"))
        | 2%N => inr (mkToyImage w' h' None)
        | _ => inl UnidentifiedImageError
        end
      else inl UnidentifiedImageError
  | _ => inl UnidentifiedImageError
  end.

Definition toy_save (img : ToyImage) (kw : save_kwargs)
    : exception + bytes :=
  inr (repeat Byte.x00
         (Z.to_nat (toy_width img * toy_height img * kw_quality kw))).

Definition toy_resize (img : ToyImage) (size : Z * Z) (_ : Resampling)
    : exception + ToyImage :=
  inr (mkToyImage (fst size) (snd size) (toy_format img)).

#[local] Instance toy_pillow : Pillow := {|
  Image := ToyImage;
  Image_open := toy_open;
  Image_format := toy_format;
  Image_convert := fun img _ => inr img;
  Image_size := fun img => (toy_width img, toy_height img);
  Image_save := toy_save;
  Image_resize := toy_resize
|}.

(** The same Pillow with a fragile encoder and no resizing: [save] fails
    below quality 50 and [resize] always fails. *)
Definition fragile_pillow : Pillow := {|
  Image := ToyImage;
  Image_open := toy_open;
  Image_format := toy_format;
  Image_convert := fun img _ => inr img;
  Image_size := fun img => (toy_width img, toy_height img);
  Image_save := fun img kw =>
    if kw_quality kw <? 50 then inl (OSError "encoder error")
    else toy_save img kw;
  Image_resize := fun _ _ _ => inl (OSError "cannot resize")
|}.

(** A directory listing that knows the PNG files of [toy_world]. *)
Definition toy_glob (_ : World) (directory pattern : string) : list string :=
  if (pattern =? "*.png")%string
  then [directory ++ "/b.png"; directory ++ "/a.png";
        directory ++ "/one.png"]
  else [].

#[local] Instance toy_pathlib : Pathlib := {|
  resolve := fun p => p;
  glob := toy_glob;
  rglob := toy_glob
|}.

(** A recursive listing of the two sound images of [toy_world]. *)
Definition toy_pathlib_sound : Pathlib := {|
  resolve := fun p => p;
  glob := fun _ _ _ => [];
  rglob := fun _ directory pattern =>
    if (pattern =? "*.jpg")%string then [directory ++ "/c.jpg"]
    else if (pattern =? "*.png")%string then [directory ++ "/one.png"]
    else []
|}.

(** [d/a.png] is not an image; [d/b.png] and [d/c.jpg] are 4x4 images and
    [d/one.png] is a 1x1 image. *)
Definition toy_world : World := {|
  files :=
    <["d/a.png" := [Byte.x09; Byte.x09]]>
      (<["d/b.png" := [Byte.x01; Byte.x04; Byte.x04]]>
         (<["d/c.jpg" := [Byte.x00; Byte.x04; Byte.x04]]>
            (<["d/one.png" := [Byte.x01; Byte.x01; Byte.x01]]> ∅)));
  dirs := {["d"]};
  writes := []
|}.

Definition toy_4x4 : ToyImage := mkToyImage 4 4 (Some "PNG").

Definition toy_1x1 : ToyImage := mkToyImage 1 1 (Some "PNG").

(** ** Arithmetic of the scale step *)

Lemma int_mul_unfold (n : Z) (f : Q) :
  int_mul n f = (n * Qnum f) ÷ Z.pos (Qden f).
Proof. destruct f as [a b]; reflexivity. Qed.

Lemma scale_factor_bounds (f : Q) :
  (0 < f)%Q -> (f < 1)%Q -> 0 < Qnum f < Z.pos (Qden f).
Proof. destruct f as [a b]; unfold Qlt; simpl; lia. Qed.

Lemma int_mul_shrinks (n : Z) (f : Q) :
  (0 < f)%Q -> (f < 1)%Q -> 1 <= n -> 0 <= int_mul n f < n.
Proof.
  intros H0 H1 Hn.
  pose proof (scale_factor_bounds f H0 H1) as [Ha Hb].
  rewrite int_mul_unfold, Z.quot_div_nonneg by nia.
  split.
  - apply Z.div_pos; nia.
  - apply Z.div_lt_upper_bound; nia.
Qed.

Lemma int_mul_nonpos (n : Z) (f : Q) :
  (0 < f)%Q -> n <= 0 -> int_mul n f <= 0.
Proof.
  intros H0 Hn.
  assert (Ha : 0 < Qnum f) by (destruct f; unfold Qlt in H0; simpl in *; lia).
  rewrite int_mul_unfold.
  replace (n * Qnum f) with (- (- n * Qnum f)) by lia.
  rewrite Z.quot_opp_l by lia.
  pose proof (Z.quot_pos (- n * Qnum f) (Z.pos (Qden f))); nia.
Qed.

(** The clamped scaled axis moves toward 1 and never away from it. *)
Lemma scaled_axis_distance (n : Z) (f : Q) :
  (0 < f)%Q -> (f < 1)%Q ->
  let n' := Z.max 1 (int_mul n f) in
  1 <= n' /\ Z.abs (n' - 1) <= Z.abs (n - 1) /\
  (n' <> n -> Z.abs (n' - 1) < Z.abs (n - 1)).
Proof.
  intros H0 H1 n'; subst n'.
  destruct (Z_lt_le_dec n 1) as [Hsmall | Hbig].
  - pose proof (int_mul_nonpos n f H0); lia.
  - pose proof (int_mul_shrinks n f H0 H1 Hbig); lia.
Qed.

(** From a positive axis the clamped scaled axis is positive and no
    larger. *)
Lemma scaled_axis_le (n : Z) (f : Q) :
  (0 < f)%Q -> (f < 1)%Q -> 1 <= n ->
  1 <= Z.max 1 (int_mul n f) <= n.
Proof. intros H0 H1 Hn; pose proof (int_mul_shrinks n f H0 H1 Hn); lia. Qed.

(** ** One pass through the loop body *)

Section LoopFacts.

Context {PIL : Pillow}.

Variables (target_size min_quality quality_step : Z) (resize_step : Q).

Abbreviation body :=
  (loop_body target_size min_quality quality_step resize_step).
Abbreviation loop :=
  (while_true target_size min_quality quality_step resize_step).
Abbreviation new_width s := (Z.max 1 (int_mul (width s) resize_step)).
Abbreviation new_height s := (Z.max 1 (int_mul (height s) resize_step)).

(** The two [break]s: the buffer fits, or the scaled dimensions are the
    current ones. *)
Lemma loop_body_Break (s s' : LoopState) :
  body s = inr (Break s') ->
  exists buffer,
    _save_to_buffer (working_img s) "JPEG" (quality s) = inr buffer /\
    last_buffer s' = Some buffer /\
    working_img s' = working_img s /\
    width s' = width s /\ height s' = height s /\
    quality s' = quality s /\
    ((nbytes buffer <= target_size /\ loop_note s' = loop_note s) \/
     (target_size < nbytes buffer /\ quality s <= min_quality /\
      new_width s = width s /\ new_height s = height s /\
      loop_note s' = note_cannot_compress)).
Proof.
  unfold loop_body.
  destruct (_save_to_buffer (working_img s) "JPEG" (quality s))
    as [e | buffer]; [discriminate |].
  cbv zeta.
  destruct (Z.leb_spec (nbytes buffer) target_size) as [Hfit | Hover].
  - intros H; inversion H; subst; exists buffer; simpl; tauto.
  - destruct (Z.gtb_spec (quality s) min_quality) as [Hq | Hq];
      [discriminate |].
    destruct (Z.eqb_spec (new_width s) (width s)) as [Hw | Hw];
      destruct (Z.eqb_spec (new_height s) (height s)) as [Hh | Hh]; simpl;
      try (destruct (Image_resize _ _ _); discriminate).
    intros H; inversion H; subst; exists buffer; simpl.
    repeat (split; [reflexivity |]). right; tauto.
Qed.

(** The two ways to go round again: a lower quality, or a smaller image. *)
Lemma loop_body_Continue (s s' : LoopState) :
  body s = inr (Continue s') ->
  exists buffer,
    _save_to_buffer (working_img s) "JPEG" (quality s) = inr buffer /\
    target_size < nbytes buffer /\
    last_buffer s' = last_buffer s /\ loop_note s' = loop_note s /\
    ((min_quality < quality s /\
      quality s' = Z.max min_quality (quality s - quality_step) /\
      working_img s' = working_img s /\
      width s' = width s /\ height s' = height s) \/
     (quality s <= min_quality /\
      quality s' = Z.min 95 (Z.max min_quality (quality s)) /\
      (new_width s, new_height s) <> (width s, height s) /\
      Image_resize (working_img s) (new_width s, new_height s) LANCZOS
        = inr (working_img s') /\
      width s' = fst (Image_size (working_img s')) /\
      height s' = snd (Image_size (working_img s')))).
Proof.
  unfold loop_body.
  destruct (_save_to_buffer (working_img s) "JPEG" (quality s))
    as [e | buffer]; [discriminate |].
  cbv zeta.
  destruct (Z.leb_spec (nbytes buffer) target_size) as [Hfit | Hover];
    [discriminate |].
  destruct (Z.gtb_spec (quality s) min_quality) as [Hq | Hq].
  - intros H; inversion H; subst; exists buffer; simpl.
    repeat (split; [first [reflexivity | assumption] |]). left; tauto.
  - assert (Hne : ((new_width s =? width s) && (new_height s =? height s))
                  = false ->
                  (new_width s, new_height s) <> (width s, height s)).
    { intros Hb Heq; inversion Heq as [[Hw Hh]].
      rewrite Hw, Hh, !Z.eqb_refl in Hb; discriminate. }
    destruct ((new_width s =? width s) && (new_height s =? height s));
      [discriminate |].
    destruct (Image_resize (working_img s) (new_width s, new_height s)
                LANCZOS) as [e | resized] eqn:Hres; [discriminate |].
    intros H; inversion H; subst; exists buffer; simpl.
    repeat (split; [first [reflexivity | assumption] |]). right.
    repeat (split; [first [reflexivity | assumption | auto] |]).
    reflexivity.
Qed.

(** The loop itself has no effect on the world. *)
Lemma while_true_Returns_world fuel (s s' : LoopState) w w' :
  loop fuel s w = Returns s' w' -> w' = w.
Proof.
  revert s; induction fuel as [| fuel IH]; intros s; simpl; [discriminate |].
  unfold bind, lift.
  destruct (body s) as [e | [s1 | s1]]; simpl; unfold raise, ret.
  - discriminate.
  - apply IH.
  - intros H; inversion H; reflexivity.
Qed.

Lemma while_true_Raises_world fuel (s : LoopState) e w w' :
  loop fuel s w = Raises e w' -> w' = w.
Proof.
  revert s; induction fuel as [| fuel IH]; intros s; simpl; [discriminate |].
  unfold bind, lift.
  destruct (body s) as [e1 | [s1 | s1]]; simpl; unfold raise, ret.
  - intros H; inversion H; reflexivity.
  - apply IH.
  - discriminate.
Qed.

Abbreviation pass :=
  (nth_pass target_size min_quality quality_step resize_step).

Lemma nth_pass_shift (n : nat) (s s1 : LoopState) :
  body s = inr (Continue s1) -> pass (S n) s = pass n s1.
Proof.
  intros Hs; induction n as [| n IH].
  - simpl; rewrite Hs; reflexivity.
  - change (pass (S (S n)) s) with
      (match pass (S n) s with
       | Some s' =>
           match body s' with
           | inr (Continue s'') => Some s''
           | _ => None
           end
       | None => None
       end).
    rewrite IH; reflexivity.
Qed.

(** A run that leaves the loop has gone through some passes and then
    through a [break]. *)
Lemma while_true_Returns_pass fuel (s s' : LoopState) w w' :
  loop fuel s w = Returns s' w' ->
  exists n s1,
    (n < fuel)%nat /\ pass n s = Some s1 /\ body s1 = inr (Break s').
Proof.
  revert s; induction fuel as [| fuel IH]; intros s; simpl; [discriminate |].
  unfold bind, lift.
  destruct (body s) as [e | [s1 | s1]] eqn:Hs; simpl; unfold raise, ret.
  - discriminate.
  - intros H; destruct (IH _ H) as (n & s2 & Hn & Hp & Hb).
    exists (S n), s2; split; [lia |].
    rewrite (nth_pass_shift n s s1 Hs); auto.
  - intros H; inversion H; subst.
    exists O, s; repeat split; [lia | exact Hs].
Qed.

(** More fuel does not change the outcome of a run that had enough. *)
Lemma while_true_fuel_mono fuel fuel' (s : LoopState) w :
  (fuel <= fuel')%nat ->
  loop fuel s w <> OutOfFuel -> loop fuel' s w = loop fuel s w.
Proof.
  revert fuel' s; induction fuel as [| fuel IH]; intros fuel' s Hle;
    simpl; [congruence |].
  destruct fuel' as [| fuel']; [lia |]; simpl.
  unfold bind, lift.
  destruct (body s) as [e | [s1 | s1]]; simpl; unfold raise, ret; auto.
  apply IH; lia.
Qed.

(** Whatever the request, a [break] leaves a buffer behind. *)
Lemma while_true_Returns_buffer fuel (s s' : LoopState) w w' :
  loop fuel s w = Returns s' w' ->
  exists buffer,
    last_buffer s' = Some buffer /\
    ((nbytes buffer <= target_size /\ loop_note s' = loop_note s) \/
     (target_size < nbytes buffer /\
      loop_note s' = note_cannot_compress)).
Proof.
  intros H; destruct (while_true_Returns_pass _ _ _ _ _ H)
    as (n & s1 & _ & Hp & Hb).
  assert (Hnote : loop_note s1 = loop_note s).
  { clear Hb H. revert s1 Hp; induction n as [| n IH]; simpl; intros s1 Hp.
    - inversion Hp; reflexivity.
    - destruct (pass n s) as [s2 |]; [| discriminate].
      destruct (body s2) as [e | [s3 | s3]] eqn:Hs2; try discriminate.
      inversion Hp; subst.
      destruct (loop_body_Continue _ _ Hs2) as (b & _ & _ & _ & Hn & _).
      rewrite Hn; apply IH; reflexivity. }
  destruct (loop_body_Break _ _ Hb)
    as (buffer & _ & Hl & _ & _ & _ & _ & Hcase).
  exists buffer; split; [exact Hl |].
  destruct Hcase as [[Hfit Hn] | (Hover & _ & _ & _ & Hn)].
  - left; split; [exact Hfit | congruence].
  - right; split; assumption.
Qed.

(** After a resize the quality is not above the minimum: the next pass
    that exceeds the target resizes again. *)
Lemma resize_leaves_no_headroom (s s' : LoopState) :
  body s = inr (Continue s') -> quality s <= min_quality ->
  quality s' = Z.min 95 min_quality /\ quality s' <= min_quality.
Proof.
  intros Hs Hq.
  destruct (loop_body_Continue _ _ Hs)
    as (b & _ & _ & _ & _ & [(Hgt & _) | (Hle & Hq' & _)]); lia.
Qed.

End LoopFacts.

(** ** The toy Pillow honours the contract *)

Lemma toy_resize_contract : resize_returns_requested_size toy_pillow.
Proof.
  intros img resized w h filter _ _ H; simpl in *.
  unfold toy_resize in H; inversion H; reflexivity.
Qed.

(** ** Quality and dimensions along a run *)

Section Monotonicity.

Context {PIL : Pillow}.

Variables (target_size min_quality quality_step : Z) (resize_step : Q).

Hypothesis resize_contract : resize_returns_requested_size PIL.
Hypothesis step_nonneg : 0 <= quality_step.
Hypothesis factor_pos : (0 < resize_step)%Q.
Hypothesis factor_lt_1 : (resize_step < 1)%Q.

Abbreviation body :=
  (loop_body target_size min_quality quality_step resize_step).
Abbreviation loop :=
  (while_true target_size min_quality quality_step resize_step).
Abbreviation pass :=
  (nth_pass target_size min_quality quality_step resize_step).

(** A resize pass hands back an image of the clamped scaled size. *)
Lemma resized_dimensions (s s' : LoopState) :
  Image_resize (working_img s)
    (Z.max 1 (int_mul (width s) resize_step),
     Z.max 1 (int_mul (height s) resize_step)) LANCZOS
    = inr (working_img s') ->
  width s' = fst (Image_size (working_img s')) ->
  height s' = snd (Image_size (working_img s')) ->
  width s' = Z.max 1 (int_mul (width s) resize_step) /\
  height s' = Z.max 1 (int_mul (height s) resize_step).
Proof.
  intros Hres Hw Hh.
  apply resize_contract in Hres; [| lia | lia].
  rewrite Hres in Hw, Hh; simpl in *; auto.
Qed.

Lemma loop_inv_initial (working : Image) :
  positive_size working -> loop_inv min_quality (initial_state working).
Proof. intros [Hw Hh]; unfold loop_inv, initial_state; simpl; lia. Qed.

Lemma loop_inv_step (s s' : LoopState) :
  loop_inv min_quality s -> body s = inr (Continue s') ->
  loop_inv min_quality s'.
Proof.
  intros (Hq & Hlo & Hhi & Hw & Hh) Hs.
  destruct (loop_body_Continue _ _ _ _ _ _ Hs)
    as (b & _ & _ & _ & _ &
        [(Hgt & Hq' & _ & Hw' & Hh')
        | (Hle & Hq' & _ & Hres & Hw' & Hh')]).
  - unfold loop_inv; lia.
  - destruct (resized_dimensions _ _ Hres Hw' Hh') as [Ew Eh].
    unfold loop_inv; lia.
Qed.

Lemma loop_inv_pass (working : Image) (n : nat) (s : LoopState) :
  positive_size working ->
  pass n (initial_state working) = Some s -> loop_inv min_quality s.
Proof.
  intros Hpos; revert s; induction n as [| n IH]; simpl; intros s Hp.
  - inversion Hp; subst; apply loop_inv_initial; exact Hpos.
  - destruct (pass n (initial_state working)) as [s1 |]; [| discriminate].
    destruct (body s1) as [e | [s2 | s2]] eqn:Hs1; try discriminate.
    inversion Hp; subst; eapply loop_inv_step; eauto.
Qed.

(** One pass to the next: the quality goes down with the image untouched,
    or the image shrinks with the quality untouched. *)
Lemma pass_step_cases (s s' : LoopState) :
  1 <= quality_step -> loop_inv min_quality s ->
  body s = inr (Continue s') ->
  (min_quality <= quality s' < quality s /\
   width s' = width s /\ height s' = height s) \/
  (quality s' = quality s /\
   1 <= width s' <= width s /\ 1 <= height s' <= height s /\
   (width s' < width s \/ height s' < height s)).
Proof.
  intros Hstep (Hq & Hlo & Hhi & Hw & Hh) Hs.
  destruct (loop_body_Continue _ _ _ _ _ _ Hs)
    as (b & _ & _ & _ & _ &
        [(Hgt & Hq' & _ & Hw' & Hh')
        | (Hle & Hq' & Hne & Hres & Hw' & Hh')]).
  - left; lia.
  - right.
    destruct (resized_dimensions _ _ Hres Hw' Hh') as [Ew Eh].
    pose proof (scaled_axis_le (width s) resize_step
                  factor_pos factor_lt_1 Hw).
    pose proof (scaled_axis_le (height s) resize_step
                  factor_pos factor_lt_1 Hh).
    assert (Hstrict : width s' <> width s \/ height s' <> height s).
    { destruct (Z.eq_dec (width s') (width s)) as [E1 | N1]; [| auto].
      destruct (Z.eq_dec (height s') (height s)) as [E2 | N2]; [| auto].
      exfalso; apply Hne; congruence. }
    lia.
Qed.

End Monotonicity.

(** ** The resize branch *)

(** C6, at the input that shows the defect: a 4x4 image whose encodings
    exceed the target, minimum quality 30, scale factor 1/2.  The pass that
    resizes it is entered at quality 30 and leaves the quality at
    [min(95, max(30, 30)) = 30], which is not above the minimum: the next
    pass over the target resizes again, with no round of quality reduction
    at the new resolution. *)
Theorem resize_keeps_quality_at_minimum :
  let at_floor := mkLoopState (PIL := toy_pillow) toy_4x4 4 4 30 None "" in
  let resized := mkToyImage 2 2 (Some "PNG") in
  loop_body 100 30 5 (1 # 2) at_floor
  = inr (Continue (mkLoopState resized 2 2 30 None "")) /\
  nth_pass 100 30 5 (1 # 2) 13 (initial_state toy_4x4) = Some at_floor /\
  (30 >? 30) = false /\
  loop_body 100 30 5 (1 # 2) (mkLoopState resized 2 2 30 None "")
  = inr (Continue
           (mkLoopState (mkToyImage 1 1 (Some "PNG")) 1 1 30 None "")).
Proof. vm_compute; repeat split; reflexivity. Qed.

(** ** The quality stays in range *)

(** C10 (amended): with [1 <= min_quality <= 95] and a quality step that
    is not negative, the quality is within [[min_quality, 95]] at the start
    of every pass. *)
Theorem quality_stays_in_range {PIL : Pillow}
    (target_size min_quality quality_step : Z) (resize_step : Q)
    (working : Image) (n : nat) (s : LoopState) :
  1 <= min_quality <= 95 ->
  0 <= quality_step ->
  nth_pass target_size min_quality quality_step resize_step n
    (initial_state working) = Some s ->
  min_quality <= quality s <= 95.
Proof.
  intros Hmin Hstep; revert s; induction n as [| n IH]; simpl; intros s Hp.
  - inversion Hp; subst; simpl; lia.
  - destruct (nth_pass target_size min_quality quality_step resize_step n
                (initial_state working)) as [s1 |]; [| discriminate].
    destruct (loop_body target_size min_quality quality_step resize_step s1)
      as [e | [s2 | s2]] eqn:Hs1; try discriminate.
    inversion Hp; subst.
    specialize (IH s1 eq_refl).
    destruct (loop_body_Continue _ _ _ _ _ _ Hs1)
      as (b & _ & _ & _ & _ & [(Hgt & Hq' & _) | (Hle & Hq' & _)]); lia.
Qed.

Lemma quality_stays_in_range_witness :
  1 <= 30 <= 95 /\
  0 <= 5 /\
  nth_pass (PIL := toy_pillow) 100 30 5 (1 # 2) 14 (initial_state toy_4x4)
  = Some (mkLoopState (mkToyImage 2 2 (Some "PNG")) 2 2 30 None "") /\
  30 <= 30 <= 95.
Proof.
  assert (H1 : 1 <= 30 <= 95) by lia.
  assert (H2 : 0 <= 5) by lia.
  assert (H3 : nth_pass (PIL := toy_pillow) 100 30 5 (1 # 2) 14
                 (initial_state toy_4x4)
               = Some (mkLoopState (mkToyImage 2 2 (Some "PNG")) 2 2 30
                         None ""))
    by (vm_compute; reflexivity).
  repeat (split; [assumption |]).
  exact (quality_stays_in_range 100 30 5 (1 # 2) toy_4x4 14 _ H1 H2 H3).
Defined.

(** C10 as stated fails for a negative quality step: the "decrement"
    raises the quality above 95 on the first pass over the target. *)
Lemma quality_leaves_range_negative_step :
  exists s : LoopState,
    nth_pass (PIL := toy_pillow) 100 30 (-5) (1 # 2) 1
      (initial_state toy_4x4) = Some s /\
    1 <= 30 <= 95 /\
    ~ (30 <= quality s <= 95).
Proof.
  exists (mkLoopState (PIL := toy_pillow) toy_4x4 4 4 100 None "").
  split; [vm_compute; reflexivity |].
  split; [lia | simpl; lia].
Qed.

(** ** Monotonicity *)

(** C3 (amended): with a scale factor in (0,1), a quality step of at
    least 1 and a Pillow that decodes images of positive size and resizes
    to the requested size, every pass that goes round again either lowers
    the quality, not below the minimum, with the dimensions unchanged, or
    shrinks the dimensions, not below 1x1, with the quality unchanged; so
    quality, width and height never increase from one pass to the next. *)
Theorem pass_decreases_quality_or_dimensions {PIL : Pillow}
    (target_size min_quality quality_step : Z) (resize_step : Q)
    (working : Image) (n : nat) (s s' : LoopState) :
  resize_returns_requested_size PIL ->
  positive_size working ->
  1 <= quality_step ->
  (0 < resize_step)%Q -> (resize_step < 1)%Q ->
  nth_pass target_size min_quality quality_step resize_step n
    (initial_state working) = Some s ->
  loop_body target_size min_quality quality_step resize_step s
    = inr (Continue s') ->
  ((min_quality <= quality s' < quality s /\
    width s' = width s /\ height s' = height s) \/
   (quality s' = quality s /\
    1 <= width s' <= width s /\ 1 <= height s' <= height s /\
    (width s' < width s \/ height s' < height s))) /\
  quality s' <= quality s /\ width s' <= width s /\ height s' <= height s.
Proof.
  intros Hres Hpos Hstep Hf0 Hf1 Hp Hs.
  assert (Hstep0 : 0 <= quality_step) by lia.
  pose proof (loop_inv_pass target_size min_quality quality_step resize_step
                Hres Hstep0 working n s Hpos Hp) as Hinv.
  pose proof (pass_step_cases target_size min_quality quality_step
                resize_step Hres Hf0 Hf1 s s' Hstep Hinv Hs)
    as Hcases.
  split; [exact Hcases | lia].
Qed.

Lemma pass_decreases_quality_or_dimensions_witness :
  let s := mkLoopState (PIL := toy_pillow) toy_4x4 4 4 30 None "" in
  let s' := mkLoopState (PIL := toy_pillow) (mkToyImage 2 2 (Some "PNG"))
              2 2 30 None "" in
  resize_returns_requested_size toy_pillow /\
  positive_size toy_4x4 /\
  1 <= 5 /\ (0 < 1 # 2)%Q /\ (1 # 2 < 1)%Q /\
  nth_pass 100 30 5 (1 # 2) 13 (initial_state toy_4x4) = Some s /\
  loop_body 100 30 5 (1 # 2) s = inr (Continue s') /\
  quality s' <= quality s /\ width s' <= width s /\ height s' <= height s.
Proof.
  intros s s'.
  assert (H1 : positive_size (PIL := toy_pillow) toy_4x4)
    by (unfold positive_size; simpl; lia).
  assert (H2 : 1 <= 5) by lia.
  assert (H3 : (0 < 1 # 2)%Q) by reflexivity.
  assert (H4 : (1 # 2 < 1)%Q) by reflexivity.
  assert (H5 : nth_pass 100 30 5 (1 # 2) 13 (initial_state toy_4x4) = Some s)
    by (vm_compute; reflexivity).
  assert (H6 : loop_body 100 30 5 (1 # 2) s = inr (Continue s'))
    by (vm_compute; reflexivity).
  split; [exact toy_resize_contract |].
  repeat (split; [assumption |]).
  exact (proj2 (pass_decreases_quality_or_dimensions 100 30 5 (1 # 2)
                  toy_4x4 13 s s' toy_resize_contract H1 H2 H3 H4 H5 H6)).
Defined.

(** C3 as stated fails for a quality step of 0: a pass over the target at
    a quality above the minimum goes round again with the same quality and
    the same dimensions. *)
Lemma pass_unchanged_for_zero_step :
  exists s s' : LoopState,
    (0 < 1 # 2)%Q /\ (1 # 2 < 1)%Q /\
    nth_pass (PIL := toy_pillow) 100 30 0 (1 # 2) 1 (initial_state toy_4x4)
    = Some s /\
    loop_body 100 30 0 (1 # 2) s = inr (Continue s') /\
    ~ (quality s' < quality s \/
       width s' < width s \/ height s' < height s).
Proof.
  exists (initial_state (PIL := toy_pillow) toy_4x4),
         (initial_state (PIL := toy_pillow) toy_4x4).
  repeat (split; [vm_compute; reflexivity |]).
  simpl; lia.
Qed.

(** ** Termination *)

Section Termination.

Context {PIL : Pillow}.

Variables (target_size min_quality quality_step : Z) (resize_step : Q).

Hypothesis resize_contract : resize_returns_requested_size PIL.
Hypothesis step_pos : 1 <= quality_step.
Hypothesis factor_pos : (0 < resize_step)%Q.
Hypothesis factor_lt_1 : (resize_step < 1)%Q.

Abbreviation body :=
  (loop_body target_size min_quality quality_step resize_step).
Abbreviation loop :=
  (while_true target_size min_quality quality_step resize_step).
Abbreviation bound := (passes_bound min_quality).

Lemma passes_bound_nonneg (s : LoopState) : 0 <= bound s.
Proof.
  unfold passes_bound, dim_distance, quality_range.
  assert (0 <= (Z.abs (width s - 1) + Z.abs (height s - 1))
               * (Z.max 0 (95 - min_quality) + 1))
    by (apply Z.mul_nonneg_nonneg; lia).
  lia.
Qed.

(** Every pass that goes round again lowers the bound. *)
Lemma passes_bound_decreases (s s' : LoopState) :
  quality s <= 95 -> body s = inr (Continue s') ->
  quality s' <= 95 /\ bound s' < bound s.
Proof.
  intros Hq Hs.
  destruct (loop_body_Continue _ _ _ _ _ _ Hs)
    as (b & _ & _ & _ & _ &
        [(Hgt & Hq' & _ & Hw' & Hh')
        | (Hle & Hq' & Hne & Hres & Hw' & Hh')]).
  - split; [lia |].
    unfold passes_bound, dim_distance; rewrite Hw', Hh'; lia.
  - split; [lia |].
    destruct (resized_dimensions resize_step resize_contract _ _
                Hres Hw' Hh') as [Ew Eh].
    pose proof (scaled_axis_distance (width s) resize_step
                  factor_pos factor_lt_1) as (_ & Hwle & Hwlt).
    pose proof (scaled_axis_distance (height s) resize_step
                  factor_pos factor_lt_1) as (_ & Hhle & Hhlt).
    assert (Hd : dim_distance s' + 1 <= dim_distance s).
    { unfold dim_distance; rewrite Ew, Eh.
      destruct (Z.eq_dec (Z.max 1 (int_mul (width s) resize_step))
                  (width s)) as [E1 | N1];
        destruct (Z.eq_dec (Z.max 1 (int_mul (height s) resize_step))
                    (height s)) as [E2 | N2];
        try (specialize (Hwlt N1)); try (specialize (Hhlt N2)); try lia.
      exfalso; apply Hne; congruence. }
    assert (Hk : 0 <= quality_range min_quality)
      by (unfold quality_range; lia).
    assert (Hmul : (dim_distance s' + 1) * (quality_range min_quality + 1)
                   <= dim_distance s * (quality_range min_quality + 1))
      by (apply Z.mul_le_mono_nonneg_r; lia).
    unfold passes_bound; unfold quality_range in *; lia.
Qed.

Lemma while_true_enough_fuel (fuel : nat) (s : LoopState) (w : World) :
  quality s <= 95 -> bound s < Z.of_nat fuel ->
  loop fuel s w <> OutOfFuel.
Proof.
  revert s; induction fuel as [| fuel IH]; intros s Hq Hb.
  - pose proof (passes_bound_nonneg s); lia.
  - simpl; unfold bind, lift.
    destruct (body s) as [e | [s1 | s1]] eqn:Hs; simpl; unfold raise, ret;
      try discriminate.
    destruct (passes_bound_decreases _ _ Hq Hs) as [Hq1 Hb1].
    apply IH; [exact Hq1 | lia].
Qed.

End Termination.

(** ** The whole of [_compress_image] *)

Section WholeFunction.

Context {PIL : Pillow}.

Variables (target_size min_quality quality_step : Z) (resize_step : Q).

Abbreviation loop :=
  (while_true target_size min_quality quality_step resize_step).
Abbreviation compress fuel image_path :=
  (_compress_image fuel image_path target_size min_quality quality_step
     resize_step).

Lemma conclude_buffer image_path original_size img_format (s : LoopState)
    buffer w :
  last_buffer s = Some buffer ->
  conclude target_size image_path original_size img_format s w
  = Returns
      (mkCompressResult image_path original_size (nbytes buffer)
         (nbytes buffer <=? target_size)
         (final_note (nbytes buffer <=? target_size) (nbytes buffer)
            (loop_note s) img_format))
      (written image_path buffer w).
Proof.
  intros Hb; unfold conclude; rewrite Hb.
  unfold bind, write_bytes, stat_st_size; simpl.
  rewrite lookup_insert_eq; reflexivity.
Qed.

Lemma conclude_no_buffer image_path original_size img_format
    (s : LoopState) w :
  last_buffer s = None ->
  conclude target_size image_path original_size img_format s w
  = Returns
      (mkCompressResult image_path original_size original_size false
         note_unknown_problem) w.
Proof. intros Hb; unfold conclude; rewrite Hb; reflexivity. Qed.

(** Once the file is read, opened and converted, the call is the loop
    followed by [conclude]. *)
Lemma compress_image_decoded fuel image_path w data img working :
  files w !! image_path = Some data ->
  Image_open data = inr img ->
  Image_convert img "RGB" = inr working ->
  compress fuel image_path w
  = match loop fuel (initial_state working) w with
    | Returns s w1 =>
        conclude target_size image_path (nbytes data)
          (format_or_JPEG (Image_format img)) s w1
    | Raises e w1 => Raises e w1
    | OutOfFuel => OutOfFuel
    end.
Proof.
  intros Hf Ho Hc.
  unfold _compress_image, bind, stat_st_size, read_bytes.
  rewrite !Hf; simpl; rewrite Ho; simpl; rewrite Hc; reflexivity.
Qed.

(** Before the loop the call raises, without touching the world, when the
    file is missing, is not an image or cannot be converted. *)
Lemma compress_image_not_decoded image_path w :
  (exists e, forall fuel, compress fuel image_path w = Raises e w) \/
  (exists data img working,
     files w !! image_path = Some data /\
     Image_open data = inr img /\
     Image_convert img "RGB" = inr working).
Proof.
  destruct (files w !! image_path) as [data |] eqn:Hf.
  - destruct (Image_open data) as [e | img] eqn:Ho.
    + left; exists e; intros fuel.
      unfold _compress_image, bind, stat_st_size, read_bytes.
      rewrite !Hf; simpl; rewrite Ho; reflexivity.
    + destruct (Image_convert img "RGB") as [e | working] eqn:Hc.
      * left; exists e; intros fuel.
        unfold _compress_image, bind, stat_st_size, read_bytes.
        rewrite !Hf; simpl; rewrite Ho; simpl; rewrite Hc; reflexivity.
      * right; exists data, img, working; auto.
  - left; exists (FileNotFoundError image_path); intros fuel.
    unfold _compress_image, bind, stat_st_size.
    rewrite !Hf; reflexivity.
Qed.

(** A call that returns has decoded the image, left the loop with a buffer
    and written it. *)
Lemma compress_image_Returns fuel image_path w res w' :
  compress fuel image_path w = Returns res w' ->
  exists data img working s buffer,
    files w !! image_path = Some data /\
    Image_open data = inr img /\
    Image_convert img "RGB" = inr working /\
    loop fuel (initial_state working) w = Returns s w /\
    last_buffer s = Some buffer /\
    ((nbytes buffer <= target_size /\ loop_note s = "") \/
     (target_size < nbytes buffer /\ loop_note s = note_cannot_compress)) /\
    w' = written image_path buffer w /\
    res = mkCompressResult image_path (nbytes data) (nbytes buffer)
            (nbytes buffer <=? target_size)
            (final_note (nbytes buffer <=? target_size) (nbytes buffer)
               (loop_note s) (format_or_JPEG (Image_format img))).
Proof.
  intros H.
  destruct (compress_image_not_decoded image_path w)
    as [[e He] | (data & img & working & Hf & Ho & Hc)];
    [rewrite He in H; discriminate |].
  rewrite (compress_image_decoded _ _ _ _ _ _ Hf Ho Hc) in H.
  destruct (loop fuel (initial_state working) w) as [s w1 | e w1 |] eqn:Hl;
    try discriminate.
  pose proof (while_true_Returns_world _ _ _ _ _ _ _ _ _ Hl); subst w1.
  destruct (while_true_Returns_buffer _ _ _ _ _ _ _ _ _ Hl)
    as (buffer & Hb & Hcase).
  rewrite (conclude_buffer _ _ _ _ _ _ Hb) in H.
  inversion H; subst.
  exists data, img, working, s, buffer.
  repeat match goal with |- _ /\ _ => split end;
    first [assumption | reflexivity | exact Hcase].
Qed.

(** A call that raises leaves the world as it found it. *)
Lemma compress_image_Raises fuel image_path w e w' :
  compress fuel image_path w = Raises e w' -> w' = w.
Proof.
  intros H.
  destruct (compress_image_not_decoded image_path w)
    as [[e1 He] | (data & img & working & Hf & Ho & Hc)].
  - rewrite He in H; inversion H; reflexivity.
  - rewrite (compress_image_decoded _ _ _ _ _ _ Hf Ho Hc) in H.
    destruct (loop fuel (initial_state working) w) as [s w1 | e1 w1 |] eqn:Hl;
      try discriminate.
    + pose proof (while_true_Returns_world _ _ _ _ _ _ _ _ _ Hl); subst w1.
      destruct (while_true_Returns_buffer _ _ _ _ _ _ _ _ _ Hl)
        as (buffer & Hb & _).
      rewrite (conclude_buffer _ _ _ _ _ _ Hb) in H; discriminate.
    + inversion H; subst.
      exact (while_true_Raises_world _ _ _ _ _ _ _ _ _ Hl).
Qed.

End WholeFunction.

(** C2 (amended): for a quality step of at least 1, a scale factor in
    (0,1) and a Pillow that resizes to the requested size, the search loop
    entered on any decoded image ends, by a [break] or by an exception of
    the library, within a number of passes fixed by the image and the
    minimum quality; and so does every call of [_compress_image]. *)
Theorem search_loop_terminates {PIL : Pillow}
    (target_size min_quality quality_step : Z) (resize_step : Q) :
  resize_returns_requested_size PIL ->
  1 <= quality_step ->
  (0 < resize_step)%Q -> (resize_step < 1)%Q ->
  (forall working : Image,
     exists fuel : nat,
       Z.of_nat fuel = passes_bound min_quality (initial_state working) + 1 /\
       forall (fuel' : nat) (w : World),
         (fuel <= fuel')%nat ->
         while_true target_size min_quality quality_step resize_step fuel'
           (initial_state working) w <> OutOfFuel) /\
  (forall (image_path : string) (w : World),
     exists fuel : nat,
       forall fuel' : nat,
         (fuel <= fuel')%nat ->
         _compress_image fuel' image_path target_size min_quality
           quality_step resize_step w <> OutOfFuel).
Proof.
  intros Hres Hstep Hf0 Hf1.
  assert (Hloop : forall working : Image,
            exists fuel : nat,
              Z.of_nat fuel
              = passes_bound min_quality (initial_state working) + 1 /\
              forall (fuel' : nat) (w : World),
                (fuel <= fuel')%nat ->
                while_true target_size min_quality quality_step resize_step
                  fuel' (initial_state working) w <> OutOfFuel).
  { intros working.
    pose proof (passes_bound_nonneg min_quality (initial_state working)).
    exists (Z.to_nat (passes_bound min_quality (initial_state working) + 1)).
    split; [lia |].
    intros fuel' w Hle.
    apply (while_true_enough_fuel target_size min_quality quality_step
             resize_step Hres Hstep Hf0 Hf1); [simpl; lia | lia]. }
  split; [exact Hloop |].
  intros image_path w.
  destruct (compress_image_not_decoded target_size min_quality quality_step
              resize_step image_path w)
    as [[e He] | (data & img & working & Hf & Ho & Hc)].
  - exists O; intros fuel' _; rewrite He; discriminate.
  - destruct (Hloop working) as (fuel & _ & Hfuel).
    exists fuel; intros fuel' Hle.
    rewrite (compress_image_decoded _ _ _ _ _ _ _ _ _ _ Hf Ho Hc).
    specialize (Hfuel fuel' w Hle).
    destruct (while_true target_size min_quality quality_step resize_step
                fuel' (initial_state working) w) as [s w1 | e w1 |];
      [| discriminate | congruence].
    destruct (last_buffer s) as [buffer |] eqn:Hb.
    + rewrite (conclude_buffer _ _ _ _ _ _ _ Hb); discriminate.
    + rewrite (conclude_no_buffer _ _ _ _ _ _ Hb); discriminate.
Qed.

Lemma search_loop_terminates_witness :
  resize_returns_requested_size toy_pillow /\
  1 <= 5 /\ (0 < 1 # 2)%Q /\ (1 # 2 < 1)%Q /\
  exists fuel : nat,
    forall fuel' : nat,
      (fuel <= fuel')%nat ->
      _compress_image fuel' "d/b.png" 100 30 5 (1 # 2) toy_world
      <> OutOfFuel.
Proof.
  assert (H1 : 1 <= 5) by lia.
  assert (H2 : (0 < 1 # 2)%Q) by reflexivity.
  assert (H3 : (1 # 2 < 1)%Q) by reflexivity.
  split; [exact toy_resize_contract |].
  repeat (split; [assumption |]).
  exact (proj2 (search_loop_terminates 100 30 5 (1 # 2)
                  toy_resize_contract H1 H2 H3) "d/b.png" toy_world).
Defined.

(** C2 as stated fails for a quality step of 0, which "any quality
    decrement step" admits: on an image whose encoding at quality 95 is
    over the target the loop goes round with its variables unchanged, and
    no amount of fuel brings the call to an end. *)
Lemma search_loop_diverges_for_zero_step :
  1 <= 30 <= 100 /\ (0 < 1 # 2)%Q /\ (1 # 2 < 1)%Q /\
  toy_open [Byte.x01; Byte.x04; Byte.x04] = inr toy_4x4 /\
  forall fuel : nat,
    _compress_image (PIL := toy_pillow) fuel "d/b.png" 100 30 0 (1 # 2)
      toy_world = OutOfFuel.
Proof.
  split; [lia |]. do 3 (split; [reflexivity |]).
  intros fuel.
  rewrite (compress_image_decoded (PIL := toy_pillow) 100 30 0 (1 # 2) fuel
             "d/b.png" toy_world [Byte.x01; Byte.x04; Byte.x04] toy_4x4
             toy_4x4 eq_refl eq_refl eq_refl).
  assert (Hloop : while_true (PIL := toy_pillow) 100 30 0 (1 # 2) fuel
                    (initial_state toy_4x4) toy_world = OutOfFuel).
  { induction fuel as [| fuel IH]; [reflexivity |].
    simpl; unfold bind.
    change (loop_body (PIL := toy_pillow) 100 30 0 (1 # 2)
              (initial_state (PIL := toy_pillow) toy_4x4))
      with (@inr exception _ (Continue (initial_state (PIL := toy_pillow)
                                          toy_4x4))).
    simpl; exact IH. }
  rewrite Hloop; reflexivity.
Qed.

(** ** The first encode fits *)

(** C8: when the encoding of the decoded image at quality 95 is within the
    target, the call returns [succeeded = true] with a final size within
    the target, after a single pass that leaves the working image and its
    dimensions as decoded. *)
Theorem first_encode_fits {PIL : Pillow}
    (target_size min_quality quality_step : Z) (resize_step : Q)
    (fuel : nat) (image_path : string) (w : World)
    (data buffer : bytes) (img working : Image) :
  files w !! image_path = Some data ->
  Image_open data = inr img ->
  Image_convert img "RGB" = inr working ->
  _save_to_buffer working "JPEG" 95 = inr buffer ->
  nbytes buffer <= target_size ->
  (0 < fuel)%nat ->
  exists (res : CompressResult) (s : LoopState),
    _compress_image fuel image_path target_size min_quality quality_step
      resize_step w = Returns res (written image_path buffer w) /\
    succeeded res = true /\
    final_size res = nbytes buffer /\
    final_size res <= target_size /\
    while_true target_size min_quality quality_step resize_step fuel
      (initial_state working) w = Returns s w /\
    working_img s = working /\
    (width s, height s) = Image_size working /\
    quality s = 95.
Proof.
  intros Hf Ho Hc Hsave Hfit Hfuel.
  destruct fuel as [| fuel]; [lia |].
  assert (Hloop : while_true target_size min_quality quality_step resize_step
                    (S fuel) (initial_state working) w
                  = Returns
                      (mkLoopState working (fst (Image_size working))
                         (snd (Image_size working)) 95 (Some buffer) "") w).
  { simpl; unfold bind, loop_body; simpl.
    rewrite Hsave; cbv zeta.
    destruct (Z.leb_spec (nbytes buffer) target_size); [reflexivity | lia]. }
  eexists; eexists.
  rewrite (compress_image_decoded _ _ _ _ _ _ _ _ _ _ Hf Ho Hc), Hloop.
  erewrite conclude_buffer by reflexivity.
  repeat match goal with |- _ /\ _ => split end; simpl; try reflexivity.
  - apply Z.leb_le; exact Hfit.
  - exact Hfit.
  - destruct (Image_size working); reflexivity.
Qed.

Lemma first_encode_fits_witness :
  let data := [Byte.x00; Byte.x04; Byte.x04] in
  let img := mkToyImage 4 4 (Some "JPEG") in
  let buffer := repeat Byte.x00 1520 in
  files toy_world !! "d/c.jpg" = Some data /\
  Image_open (Pillow := toy_pillow) data = inr img /\
  Image_convert img "RGB" = inr img /\
  _save_to_buffer img "JPEG" 95 = inr buffer /\
  nbytes buffer <= 2000 /\
  (0 < 1)%nat /\
  exists (res : CompressResult) (s : LoopState),
    _compress_image 1 "d/c.jpg" 2000 30 5 (1 # 2) toy_world
    = Returns res (written "d/c.jpg" buffer toy_world) /\
    succeeded res = true /\
    final_size res = nbytes buffer /\
    final_size res <= 2000 /\
    while_true 2000 30 5 (1 # 2) 1 (initial_state img) toy_world
    = Returns s toy_world /\
    working_img s = img /\
    (width s, height s) = Image_size img /\
    quality s = 95.
Proof.
  intros data img buffer.
  assert (H1 : files toy_world !! "d/c.jpg" = Some data)
    by (vm_compute; reflexivity).
  assert (H2 : Image_open (Pillow := toy_pillow) data = inr img)
    by reflexivity.
  assert (H3 : Image_convert (Pillow := toy_pillow) img "RGB" = inr img)
    by reflexivity.
  assert (H4 : _save_to_buffer (PIL := toy_pillow) img "JPEG" 95
               = inr buffer) by reflexivity.
  assert (H5 : nbytes buffer <= 2000) by (vm_compute; discriminate).
  assert (H6 : (0 < 1)%nat) by lia.
  repeat (split; [assumption |]).
  exact (first_encode_fits 2000 30 5 (1 # 2) 1 "d/c.jpg" toy_world data
           buffer img img H1 H2 H3 H4 H5 H6).
Defined.

(** ** The write and the sizes of the result *)

(** C4: a call that returns has left the loop with an accepted buffer;
    the world differs from the one before the call by one write of that
    buffer to the image path, whose content it now is; [final_size] is
    the size of the buffer and [succeeded] holds exactly when it is within
    the target.  Without a buffer, what follows the loop returns
    [final_size = original_size] and writes nothing. *)
Theorem accepted_buffer_written_once {PIL : Pillow}
    (target_size min_quality quality_step : Z) (resize_step : Q)
    (fuel : nat) (image_path : string) (w w' : World)
    (res : CompressResult) :
  _compress_image fuel image_path target_size min_quality quality_step
    resize_step w = Returns res w' ->
  (exists (working : Image) (s : LoopState) (buffer : bytes),
     while_true target_size min_quality quality_step resize_step fuel
       (initial_state working) w = Returns s w /\
     last_buffer s = Some buffer /\
     files w' = <[image_path := buffer]> (files w) /\
     files w' !! image_path = Some buffer /\
     writes w' = (writes w ++ [(image_path, buffer)])%list /\
     dirs w' = dirs w /\
     final_size res = nbytes buffer /\
     (succeeded res = true <-> final_size res <= target_size)) /\
  (forall (s : LoopState) (path0 img_format : string) (size : Z)
          (w0 : World),
     last_buffer s = None ->
     exists res0 : CompressResult,
       conclude target_size path0 size img_format s w0
       = Returns res0 w0 /\
       final_size res0 = original_size res0 /\
       original_size res0 = size /\
       succeeded res0 = false).
Proof.
  intros H; split.
  - destruct (compress_image_Returns _ _ _ _ _ _ _ _ _ H)
      as (data & img & working & s & buffer & _ & _ & _ & Hl & Hb & _
          & Hw & Hres).
    exists working, s, buffer; subst w' res; simpl.
    repeat match goal with |- _ /\ _ => split end;
      first [assumption | reflexivity | apply lookup_insert_eq
            | apply Z.leb_le].
  - intros s path0 img_format size w0 Hb.
    eexists; rewrite (conclude_no_buffer _ _ _ _ _ _ Hb).
    repeat split.
Qed.

Lemma accepted_buffer_written_once_witness :
  let buffer := repeat Byte.x00 30 in
  let res := mkCompressResult "d/b.png" 3 30 false note_cannot_compress in
  _compress_image (PIL := toy_pillow) 20 "d/b.png" 10 30 5 (1 # 2) toy_world
  = Returns res (written "d/b.png" buffer toy_world) /\
  exists (working : ToyImage) (s : LoopState) (b : bytes),
    while_true 10 30 5 (1 # 2) 20 (initial_state working) toy_world
    = Returns s toy_world /\
    last_buffer s = Some b /\
    files (written "d/b.png" buffer toy_world)
    = <["d/b.png" := b]> (files toy_world) /\
    files (written "d/b.png" buffer toy_world) !! "d/b.png" = Some b /\
    writes (written "d/b.png" buffer toy_world)
    = (writes toy_world ++ [("d/b.png", b)])%list /\
    dirs (written "d/b.png" buffer toy_world) = dirs toy_world /\
    final_size res = nbytes b /\
    (succeeded res = true <-> final_size res <= 10).
Proof.
  intros buffer res.
  assert (H : _compress_image (PIL := toy_pillow) 20 "d/b.png" 10 30 5
                (1 # 2) toy_world
              = Returns res (written "d/b.png" buffer toy_world))
    by (vm_compute; reflexivity).
  split; [exact H |].
  exact (proj1 (accepted_buffer_written_once 10 30 5 (1 # 2) 20 "d/b.png"
                  toy_world _ res H)).
Defined.

(** ** The note of the result *)


Lemma note_converted_not_best_effort (img_format : string) :
  note_best_effort <> note_converted img_format.
Proof. unfold note_best_effort, note_converted; simpl; discriminate. Qed.






(** ** The failure result *)

Lemma final_note_not_unknown_problem (success : bool) (final : Z)
    (note0 img_format : string) :
  note0 = "" \/ note0 = note_cannot_compress ->
  final_note success final note0 img_format <> note_unknown_problem.
Proof.
  intros [-> | ->]; unfold final_note; destruct success; simpl;
    try destruct (negb (upper img_format =? "JPEG")%string);
    unfold note_converted, note_best_effort, note_cannot_compress,
      note_with_final_size, note_unknown_problem; simpl; discriminate.
Qed.

(** C9: a call that returns has left the loop with [last_buffer] holding a
    buffer, whichever [break] ended it, so its result is not the
    unknown-problem result of the branch for a missing buffer. *)
Theorem failure_branch_unreachable {PIL : Pillow}
    (target_size min_quality quality_step : Z) (resize_step : Q)
    (fuel : nat) (image_path : string) (w w' : World)
    (res : CompressResult) :
  _compress_image fuel image_path target_size min_quality quality_step
    resize_step w = Returns res w' ->
  (exists (working : Image) (s : LoopState) (buffer : bytes),
     while_true target_size min_quality quality_step resize_step fuel
       (initial_state working) w = Returns s w /\
     last_buffer s = Some buffer) /\
  note res <> note_unknown_problem /\
  res <> mkCompressResult image_path (original_size res) (original_size res)
           false note_unknown_problem.
Proof.
  intros H.
  destruct (compress_image_Returns _ _ _ _ _ _ _ _ _ H)
    as (data & img & working & s & buffer & _ & _ & _ & Hl & Hb & Hcase
        & _ & Hres).
  assert (Hnote : note res <> note_unknown_problem).
  { subst res; cbn [note].
    apply final_note_not_unknown_problem.
    destruct Hcase as [[_ Hn] | [_ Hn]]; auto. }
  split; [exists working, s, buffer; auto |].
  split; [exact Hnote |].
  intros Heq; apply Hnote; rewrite Heq; reflexivity.
Qed.

Lemma failure_branch_unreachable_witness :
  let buffer := repeat Byte.x00 30 in
  let res := mkCompressResult "d/b.png" 3 30 false note_cannot_compress in
  _compress_image (PIL := toy_pillow) 20 "d/b.png" 10 30 5 (1 # 2) toy_world
  = Returns res (written "d/b.png" buffer toy_world) /\
  note res <> note_unknown_problem.
Proof.
  intros buffer res.
  assert (H : _compress_image (PIL := toy_pillow) 20 "d/b.png" 10 30 5
                (1 # 2) toy_world
              = Returns res (written "d/b.png" buffer toy_world))
    by (vm_compute; reflexivity).
  split; [exact H |].
  exact (proj1 (proj2 (failure_branch_unreachable 10 30 5 (1 # 2) 20
                         "d/b.png" toy_world _ res H))).
Defined.

(** Whatever state the loop is entered in, a run that leaves it has
    assigned [last_buffer]. *)
Lemma loop_exit_assigns_last_buffer {PIL : Pillow}
    (target_size min_quality quality_step : Z) (resize_step : Q)
    (fuel : nat) (s0 s : LoopState) (w w' : World) :
  while_true target_size min_quality quality_step resize_step fuel s0 w
  = Returns s w' ->
  last_buffer s <> None.
Proof.
  intros H.
  destruct (while_true_Returns_buffer _ _ _ _ _ _ _ _ _ H)
    as (buffer & Hb & _).
  congruence.
Qed.

(** ** Failures of a single file *)

Section Directory.

Context {PIL : Pillow} {PL : Pathlib}.

Variables (target_size min_quality quality_step : Z) (resize_step : Q).

Abbreviation compress fuel image_path :=
  (_compress_image fuel image_path target_size min_quality quality_step
     resize_step).
Abbreviation for_files fuel image_files :=
  (for_image_files fuel image_files target_size min_quality quality_step
     resize_step).

(** The [for] loop stops at the first file whose call raises. *)
Lemma for_image_files_raises fuel pre image_file post results results1
    w w1 e w2 :
  for_files fuel pre results w = Returns results1 w1 ->
  compress fuel image_file w1 = Raises e w2 ->
  for_files fuel (pre ++ image_file :: post) results w = Raises e w2.
Proof.
  revert results w; induction pre as [| p pre IH]; intros results w Hpre Hp.
  - simpl in Hpre; unfold ret in Hpre; inversion Hpre; subst.
    simpl; unfold bind; rewrite Hp; reflexivity.
  - simpl in *; unfold bind in *.
    destruct (compress fuel p w) as [r wp | ep wp |]; try discriminate.
    eapply IH; eauto.
Qed.

Lemma compress_directory_listing fuel directory recursive w :
  resolve directory ∈ dirs w ->
  compress_directory fuel directory target_size recursive min_quality
    quality_step resize_step w
  = match _iter_image_files (resolve directory) recursive w with
    | Returns image_files w1 => for_files fuel image_files [] w1
    | Raises e w1 => Raises e w1
    | OutOfFuel => OutOfFuel
    end.
Proof.
  intros Hdir.
  unfold compress_directory, bind, path_exists, path_is_dir.
  rewrite bool_decide_eq_true_2 by auto; simpl.
  rewrite bool_decide_eq_true_2 by auto; reflexivity.
Qed.

End Directory.

(** A pass whose body is not a [continue] is the last one. *)
Lemma nth_pass_stops {PIL : Pillow}
    (target_size min_quality quality_step : Z) (resize_step : Q)
    (n : nat) (s : LoopState) :
  (forall s1, loop_body target_size min_quality quality_step resize_step s
              <> inr (Continue s1)) ->
  nth_pass target_size min_quality quality_step resize_step (S n) s = None.
Proof.
  intros Hstop; induction n as [| n IH].
  - simpl.
    destruct (loop_body target_size min_quality quality_step resize_step s)
      as [e | [s1 | s1]] eqn:Hs; try reflexivity.
    destruct (Hstop s1 eq_refl).
  - change (nth_pass target_size min_quality quality_step resize_step
              (S (S n)) s)
      with (match nth_pass target_size min_quality quality_step resize_step
                    (S n) s with
            | Some s' =>
                match loop_body target_size min_quality quality_step
                        resize_step s' with
                | inr (Continue s'') => Some s''
                | _ => None
                end
            | None => None
            end).
    rewrite IH; reflexivity.
Qed.

(** A pass whose body raises makes the loop raise, given the fuel to get
    there. *)
Lemma while_true_raises_at_pass {PIL : Pillow}
    (target_size min_quality quality_step : Z) (resize_step : Q)
    (fuel n : nat) (s0 s : LoopState) (e : exception) (w : World) :
  (n < fuel)%nat ->
  nth_pass target_size min_quality quality_step resize_step n s0 = Some s ->
  loop_body target_size min_quality quality_step resize_step s = inl e ->
  while_true target_size min_quality quality_step resize_step fuel s0 w
  = Raises e w.
Proof.
  revert n s0; induction fuel as [| fuel IH]; intros n s0 Hn Hp He; [lia |].
  simpl; unfold bind, lift.
  destruct n as [| n].
  - simpl in Hp; inversion Hp; subst; rewrite He; reflexivity.
  - destruct (loop_body target_size min_quality quality_step resize_step s0)
      as [e0 | [s1 | s1]] eqn:Hs0.
    + rewrite nth_pass_stops in Hp by (intros s1; congruence).
      discriminate.
    + simpl. rewrite (nth_pass_shift _ _ _ _ n s0 s1 Hs0) in Hp.
      apply (IH n s1); [lia | exact Hp | exact He].
    + rewrite nth_pass_stops in Hp by (intros s2; congruence).
      discriminate.
Qed.

(** A failure of the library on the file is an exception of the call. *)
Lemma image_failure_raises {PIL : Pillow}
    (target_size min_quality quality_step : Z) (resize_step : Q)
    (fuel : nat) (image_path : string) (w : World) (e : exception) :
  image_failure fuel target_size min_quality quality_step resize_step
    image_path w e ->
  _compress_image fuel image_path target_size min_quality quality_step
    resize_step w = Raises e w.
Proof.
  intros [data Hf Ho
         | data img Hf Ho Hc
         | data img working n s Hf Ho Hc Hn Hp Hsave
         | data img working n s buffer Hf Ho Hc Hn Hp Hsave Hover Hq Hne
             Hres].
  - unfold _compress_image, bind, stat_st_size, read_bytes.
    rewrite !Hf; simpl; rewrite Ho; reflexivity.
  - unfold _compress_image, bind, stat_st_size, read_bytes.
    rewrite !Hf; simpl; rewrite Ho; simpl; rewrite Hc; reflexivity.
  - rewrite (compress_image_decoded _ _ _ _ _ _ _ _ _ _ Hf Ho Hc).
    rewrite (while_true_raises_at_pass _ _ _ _ fuel n _ s e w Hn Hp);
      [reflexivity |].
    unfold loop_body; rewrite Hsave; reflexivity.
  - rewrite (compress_image_decoded _ _ _ _ _ _ _ _ _ _ Hf Ho Hc).
    rewrite (while_true_raises_at_pass _ _ _ _ fuel n _ s e w Hn Hp);
      [reflexivity |].
    unfold loop_body; rewrite Hsave; cbv zeta.
    destruct (Z.leb_spec (nbytes buffer) target_size); [lia |].
    destruct (Z.gtb_spec (quality s) min_quality); [lia |].
    destruct (Z.eqb_spec (Z.max 1 (int_mul (width s) resize_step))
                (width s)) as [Hw | Hw];
      destruct (Z.eqb_spec (Z.max 1 (int_mul (height s) resize_step))
                  (height s)) as [Hh | Hh]; simpl;
      try (rewrite Hres; reflexivity).
    exfalso; apply Hne; congruence.
Qed.

(** C1 (amended): when a library call fails on a file, in decoding,
    encoding or resizing, the call of [_compress_image] for that file
    raises the library's exception: it returns no result and leaves the
    file and the rest of the world as they were.  The exception leaves
    [compress_directory] as well, which returns no list of results and
    does not go on to the remaining files; the files before the failing
    one have been rewritten. *)
Theorem per_file_failure_aborts_run {PIL : Pillow} {PL : Pathlib}
    (target_size min_quality quality_step : Z) (resize_step : Q)
    (fuel : nat) (directory : string) (recursive : bool)
    (pre post : list string) (image_file : string)
    (results1 : list CompressResult) (w w1 : World) (e : exception) :
  resolve directory ∈ dirs w ->
  _iter_image_files (resolve directory) recursive w
  = Returns (pre ++ image_file :: post)%list w ->
  for_image_files fuel pre target_size min_quality quality_step resize_step
    [] w = Returns results1 w1 ->
  image_failure fuel target_size min_quality quality_step resize_step
    image_file w1 e ->
  _compress_image fuel image_file target_size min_quality quality_step
    resize_step w1 = Raises e w1 /\
  compress_directory fuel directory target_size recursive min_quality
    quality_step resize_step w = Raises e w1.
Proof.
  intros Hdir Hlist Hpre Hfail.
  pose proof (image_failure_raises _ _ _ _ _ _ _ _ Hfail) as Hraise.
  split; [exact Hraise |].
  rewrite (compress_directory_listing _ _ _ _ _ _ _ _ Hdir), Hlist.
  eapply for_image_files_raises; eauto.
Qed.

Lemma per_file_failure_aborts_run_witness :
  let w1 := written "d/b.png" (repeat Byte.x00 30) toy_world in
  let results1 :=
    [mkCompressResult "d/b.png" 3 30 true (note_converted "PNG")] in
  (resolve "d" ∈ dirs toy_world) /\
  _iter_image_files (PL := toy_pathlib) (resolve "d") true toy_world
  = Returns (["d/b.png"] ++ "d/a.png" :: ["d/one.png"])%list toy_world /\
  for_image_files (PIL := toy_pillow) 20 ["d/b.png"] 100 30 5 (1 # 2) []
    toy_world = Returns results1 w1 /\
  image_failure (PIL := toy_pillow) 20 100 30 5 (1 # 2) "d/a.png" w1
    UnidentifiedImageError /\
  _compress_image (PIL := toy_pillow) 20 "d/a.png" 100 30 5 (1 # 2) w1
  = Raises UnidentifiedImageError w1 /\
  compress_directory (PIL := toy_pillow) (PL := toy_pathlib) 20 "d" 100 true
    30 5 (1 # 2) toy_world = Raises UnidentifiedImageError w1.
Proof.
  intros w1 results1.
  assert (H1 : resolve (Pathlib := toy_pathlib) "d" ∈ dirs toy_world)
    by (vm_compute; reflexivity).
  assert (H2 : _iter_image_files (PL := toy_pathlib) (resolve "d") true
                 toy_world
               = Returns (["d/b.png"] ++ "d/a.png" :: ["d/one.png"])%list
                   toy_world) by reflexivity.
  assert (H3 : for_image_files (PIL := toy_pillow) 20 ["d/b.png"] 100 30 5
                 (1 # 2) [] toy_world = Returns results1 w1)
    by (vm_compute; reflexivity).
  assert (H4 : image_failure (PIL := toy_pillow) 20 100 30 5 (1 # 2)
                 "d/a.png" w1 UnidentifiedImageError).
  { apply (open_fails (PIL := toy_pillow) 20 100 30 5 (1 # 2) "d/a.png" w1
             UnidentifiedImageError [Byte.x09; Byte.x09]);
      [vm_compute; reflexivity | reflexivity]. }
  repeat (split; [assumption |]).
  exact (per_file_failure_aborts_run 100 30 5 (1 # 2) 20 "d" true
           ["d/b.png"] ["d/one.png"] "d/a.png" results1 toy_world
           w1 UnidentifiedImageError H1 H2 H3 H4).
Defined.

(** Failures of [save] and of [resize] on the fragile Pillow: the encoder
    gives up at quality 45, after ten passes; with a minimum quality of 60
    the first resize fails, after seven.  Either way the call raises and
    the file is as it was. *)
Lemma encode_and_resize_failures_raise :
  image_failure (PIL := fragile_pillow) 20 100 30 5 (1 # 2) "d/b.png"
    toy_world (OSError "encoder error") /\
  _compress_image (PIL := fragile_pillow) 20 "d/b.png" 100 30 5 (1 # 2)
    toy_world = Raises (OSError "encoder error") toy_world /\
  image_failure (PIL := fragile_pillow) 20 100 60 5 (1 # 2) "d/b.png"
    toy_world (OSError "cannot resize") /\
  _compress_image (PIL := fragile_pillow) 20 "d/b.png" 100 60 5 (1 # 2)
    toy_world = Raises (OSError "cannot resize") toy_world.
Proof.
  assert (Hsave : image_failure (PIL := fragile_pillow) 20 100 30 5 (1 # 2)
                    "d/b.png" toy_world (OSError "encoder error")).
  { apply (save_fails (PIL := fragile_pillow) 20 100 30 5 (1 # 2) "d/b.png"
             toy_world (OSError "encoder error")
             [Byte.x01; Byte.x04; Byte.x04] toy_4x4 toy_4x4 10
             (mkLoopState (PIL := fragile_pillow) toy_4x4 4 4 45 None ""));
      first [reflexivity | lia | vm_compute; reflexivity]. }
  assert (Hresize : image_failure (PIL := fragile_pillow) 20 100 60 5
                      (1 # 2) "d/b.png" toy_world (OSError "cannot resize")).
  { apply (resize_fails (PIL := fragile_pillow) 20 100 60 5 (1 # 2)
             "d/b.png" toy_world (OSError "cannot resize")
             [Byte.x01; Byte.x04; Byte.x04] toy_4x4 toy_4x4 7
             (mkLoopState (PIL := fragile_pillow) toy_4x4 4 4 60 None "")
             (repeat Byte.x00 960));
      first [reflexivity | lia | vm_compute; reflexivity
            | simpl; lia | vm_compute; discriminate]. }
  split; [exact Hsave |].
  split; [exact (image_failure_raises _ _ _ _ _ _ _ _ Hsave) |].
  split; [exact Hresize |].
  exact (image_failure_raises _ _ _ _ _ _ _ _ Hresize).
Qed.

(** C1 as stated fails: for a file that is not an image the call returns
    no [CompressResult], the exception leaves [compress_directory], and
    the file listed after it, a valid image, is never processed. *)
Lemma undecodable_file_aborts_run :
  let w1 := written "d/b.png" (repeat Byte.x00 30) toy_world in
  toy_open [Byte.x09; Byte.x09] = inl UnidentifiedImageError /\
  _compress_image (PIL := toy_pillow) 20 "d/a.png" 100 30 5 (1 # 2)
    toy_world = Raises UnidentifiedImageError toy_world /\
  ~ (exists (res : CompressResult) (w' : World),
       _compress_image (PIL := toy_pillow) 20 "d/a.png" 100 30 5 (1 # 2)
         toy_world = Returns res w' /\ succeeded res = false) /\
  compress_directory (PIL := toy_pillow) (PL := toy_pathlib) 20 "d" 100 true
    30 5 (1 # 2) toy_world = Raises UnidentifiedImageError w1 /\
  ~ (exists (results : list CompressResult) (w' : World),
       compress_directory (PIL := toy_pillow) (PL := toy_pathlib) 20 "d"
         100 true 30 5 (1 # 2) toy_world = Returns results w') /\
  writes w1 = [("d/b.png", repeat Byte.x00 30)].
Proof.
  intros w1.
  assert (Hfail : _compress_image (PIL := toy_pillow) 20 "d/a.png" 100 30 5
                    (1 # 2) toy_world
                  = Raises UnidentifiedImageError toy_world)
    by (vm_compute; reflexivity).
  assert (Hdir : compress_directory (PIL := toy_pillow) (PL := toy_pathlib)
                   20 "d" 100 true 30 5 (1 # 2) toy_world
                 = Raises UnidentifiedImageError w1)
    by (vm_compute; reflexivity).
  split; [reflexivity |].
  split; [exact Hfail |].
  split; [intros (res & w' & H & _); rewrite Hfail in H; discriminate |].
  split; [exact Hdir |].
  split; [intros (results & w' & H); rewrite Hdir in H; discriminate |].
  reflexivity.
Qed.

(** ** More on the search loop *)

Section Exit.

Context {PIL : Pillow}.

Variables (target_size min_quality quality_step : Z) (resize_step : Q).

Abbreviation body :=
  (loop_body target_size min_quality quality_step resize_step).
Abbreviation loop :=
  (while_true target_size min_quality quality_step resize_step).
Abbreviation pass :=
  (nth_pass target_size min_quality quality_step resize_step).

(** The state a run leaves the loop in, against the pass that broke out. *)
Lemma while_true_Returns_exit fuel (s0 s : LoopState) w w' :
  loop fuel s0 w = Returns s w' ->
  exists n s1 buffer,
    pass n s0 = Some s1 /\
    working_img s = working_img s1 /\
    width s = width s1 /\ height s = height s1 /\
    quality s = quality s1 /\
    _save_to_buffer (working_img s) "JPEG" (quality s) = inr buffer /\
    last_buffer s = Some buffer /\
    ((nbytes buffer <= target_size /\ loop_note s = loop_note s1) \/
     (target_size < nbytes buffer /\ quality s <= min_quality /\
      Z.max 1 (int_mul (width s) resize_step) = width s /\
      Z.max 1 (int_mul (height s) resize_step) = height s /\
      loop_note s = note_cannot_compress)).
Proof.
  intros H.
  destruct (while_true_Returns_pass _ _ _ _ _ _ _ _ _ H)
    as (n & s1 & _ & Hp & Hb).
  destruct (loop_body_Break _ _ _ _ _ _ Hb)
    as (buffer & Hsave & Hl & Hi & Hw & Hh & Hq & Hcase).
  exists n, s1, buffer.
  rewrite Hi, Hw, Hh, Hq.
  repeat match goal with |- _ /\ _ => split end;
    first [assumption | reflexivity].
Qed.

End Exit.

(** On a factor in (0,1) only the axis of one pixel is left as it is. *)
Lemma scaled_axis_fixed (n : Z) (f : Q) :
  (0 < f)%Q -> (f < 1)%Q -> Z.max 1 (int_mul n f) = n -> n = 1.
Proof.
  intros H0 H1 Hfix.
  pose proof (scaled_axis_distance n f H0 H1) as (Hpos & _ & _).
  cbv zeta in Hpos; rewrite Hfix in Hpos.
  pose proof (int_mul_shrinks n f H0 H1 Hpos); lia.
Qed.

(** X1: the bytes a returning call leaves in the file are what Pillow's
    [save] produced for the working image the loop ended with, at the
    quality it ended with, as an optimized progressive JPEG. *)
Theorem written_bytes_are_final_encoding {PIL : Pillow}
    (target_size min_quality quality_step : Z) (resize_step : Q)
    (fuel : nat) (image_path : string) (w w' : World)
    (res : CompressResult) :
  _compress_image fuel image_path target_size min_quality quality_step
    resize_step w = Returns res w' ->
  exists (working : Image) (s : LoopState) (buffer : bytes),
    while_true target_size min_quality quality_step resize_step fuel
      (initial_state working) w = Returns s w /\
    Image_save (working_img s)
      {| kw_format := "JPEG"; kw_quality := quality s;
         kw_optimize := true; kw_progressive := Some true |}
    = inr buffer /\
    files w' !! image_path = Some buffer /\
    final_size res = nbytes buffer.
Proof.
  intros H.
  destruct (compress_image_Returns _ _ _ _ _ _ _ _ _ H)
    as (data & img & working & s & buffer & _ & _ & _ & Hl & Hb & _
        & Hw & Hres).
  destruct (while_true_Returns_exit _ _ _ _ _ _ _ _ _ Hl)
    as (n & s1 & buffer' & _ & _ & _ & _ & _ & Hsave & Hb' & _).
  assert (buffer' = buffer) by congruence; subst buffer'.
  exists working, s, buffer; subst w' res; simpl.
  repeat match goal with |- _ /\ _ => split end;
    first [assumption | reflexivity | apply lookup_insert_eq].
Qed.

Lemma written_bytes_are_final_encoding_witness :
  let buffer := repeat Byte.x00 30 in
  let res := mkCompressResult "d/b.png" 3 30 true (note_converted "PNG") in
  _compress_image (PIL := toy_pillow) 20 "d/b.png" 100 30 5 (1 # 2) toy_world
  = Returns res (written "d/b.png" buffer toy_world) /\
  exists (working : ToyImage) (s : LoopState) (b : bytes),
    while_true 100 30 5 (1 # 2) 20 (initial_state working) toy_world
    = Returns s toy_world /\
    Image_save (working_img s)
      {| kw_format := "JPEG"; kw_quality := quality s;
         kw_optimize := true; kw_progressive := Some true |}
    = inr b /\
    files (written "d/b.png" buffer toy_world) !! "d/b.png" = Some b /\
    final_size res = nbytes b.
Proof.
  intros buffer res.
  assert (H : _compress_image (PIL := toy_pillow) 20 "d/b.png" 100 30 5
                (1 # 2) toy_world
              = Returns res (written "d/b.png" buffer toy_world))
    by (vm_compute; reflexivity).
  split; [exact H |].
  exact (written_bytes_are_final_encoding 100 30 5 (1 # 2) 20 "d/b.png"
           toy_world _ res H).
Defined.

(** X2: with a scale factor in (0,1), a result that did not succeed comes
    from an image already shrunk to 1x1 at a quality not above the
    minimum, whose encoding is still over the target; its note is the
    cannot-compress-further note. *)
Theorem failed_result_is_at_the_floor {PIL : Pillow}
    (target_size min_quality quality_step : Z) (resize_step : Q)
    (fuel : nat) (image_path : string) (w w' : World)
    (res : CompressResult) :
  (0 < resize_step)%Q -> (resize_step < 1)%Q ->
  _compress_image fuel image_path target_size min_quality quality_step
    resize_step w = Returns res w' ->
  succeeded res = false ->
  exists (working : Image) (s : LoopState),
    while_true target_size min_quality quality_step resize_step fuel
      (initial_state working) w = Returns s w /\
    width s = 1 /\ height s = 1 /\
    quality s <= min_quality /\
    target_size < final_size res /\
    note res = note_cannot_compress.
Proof.
  intros Hf0 Hf1 H Hfail.
  destruct (compress_image_Returns _ _ _ _ _ _ _ _ _ H)
    as (data & img & working & s & buffer & _ & _ & _ & Hl & Hb & _
        & Hw & Hres).
  destruct (while_true_Returns_exit _ _ _ _ _ _ _ _ _ Hl)
    as (n & s1 & buffer' & _ & _ & _ & _ & _ & _ & Hb' & Hcase).
  assert (buffer' = buffer) by congruence; subst buffer'.
  subst res; cbn [succeeded final_size note] in *.
  apply Z.leb_gt in Hfail.
  destruct Hcase as [[Hfit _] | (Hover & Hq & Hfw & Hfh & Hn)]; [lia |].
  exists working, s.
  repeat match goal with |- _ /\ _ => split end;
    try first [assumption | lia].
  - exact (scaled_axis_fixed _ _ Hf0 Hf1 Hfw).
  - exact (scaled_axis_fixed _ _ Hf0 Hf1 Hfh).
  - rewrite Hn.
    destruct (Z.leb_spec (nbytes buffer) target_size); [lia |].
    reflexivity.
Qed.

Lemma failed_result_is_at_the_floor_witness :
  let buffer := repeat Byte.x00 30 in
  let res := mkCompressResult "d/b.png" 3 30 false note_cannot_compress in
  (0 < 1 # 2)%Q /\ (1 # 2 < 1)%Q /\
  _compress_image (PIL := toy_pillow) 20 "d/b.png" 10 30 5 (1 # 2) toy_world
  = Returns res (written "d/b.png" buffer toy_world) /\
  succeeded res = false /\
  exists (working : ToyImage) (s : LoopState),
    while_true 10 30 5 (1 # 2) 20 (initial_state working) toy_world
    = Returns s toy_world /\
    width s = 1 /\ height s = 1 /\
    quality s <= 30 /\
    10 < final_size res /\
    note res = note_cannot_compress.
Proof.
  intros buffer res.
  assert (H1 : (0 < 1 # 2)%Q) by reflexivity.
  assert (H2 : (1 # 2 < 1)%Q) by reflexivity.
  assert (H3 : _compress_image (PIL := toy_pillow) 20 "d/b.png" 10 30 5
                 (1 # 2) toy_world
               = Returns res (written "d/b.png" buffer toy_world))
    by (vm_compute; reflexivity).
  assert (H4 : succeeded res = false) by reflexivity.
  repeat (split; [assumption |]).
  exact (failed_result_is_at_the_floor 10 30 5 (1 # 2) 20 "d/b.png"
           toy_world _ res H1 H2 H3 H4).
Defined.

(** X3: the note of a result is decided by its success flag.  A result
    that succeeded carries the conversion note, or no note when the
    original is a JPEG; one that did not carries the
    cannot-compress-further note.  The best-effort note is never the note
    of a result. *)
Theorem result_note_follows_success {PIL : Pillow}
    (target_size min_quality quality_step : Z) (resize_step : Q)
    (fuel : nat) (image_path : string) (w w' : World)
    (res : CompressResult) :
  _compress_image fuel image_path target_size min_quality quality_step
    resize_step w = Returns res w' ->
  exists (data : bytes) (img : Image),
    files w !! image_path = Some data /\
    Image_open data = inr img /\
    let img_format := format_or_JPEG (Image_format img) in
    (succeeded res = true ->
     note res = if (upper img_format =? "JPEG")%string
                then "" else note_converted img_format) /\
    (succeeded res = false -> note res = note_cannot_compress) /\
    note res <> note_best_effort.
Proof.
  intros H.
  destruct (compress_image_Returns _ _ _ _ _ _ _ _ _ H)
    as (data & img & working & s & buffer & Hf & Ho & _ & _ & _ & Hcase
        & _ & Hres).
  exists data, img.
  repeat (split; [assumption |]).
  intros img_format; subst img_format res; cbn [note succeeded].
  generalize (format_or_JPEG (Image_format img)); intros img_format.
  destruct Hcase as [[Hfit Hn] | [Hover Hn]]; rewrite Hn.
  - destruct (Z.leb_spec (nbytes buffer) target_size); [| lia].
    unfold final_note; simpl.
    destruct (String.eqb_spec (upper img_format) "JPEG"); simpl.
    + repeat split; [discriminate | discriminate].
    + repeat split; [discriminate |].
      intros Hbad; symmetry in Hbad.
      exact (note_converted_not_best_effort _ Hbad).
  - destruct (Z.leb_spec (nbytes buffer) target_size); [lia |].
    repeat split; [discriminate | discriminate].
Qed.

Lemma result_note_follows_success_witness :
  let buffer := repeat Byte.x00 1520 in
  let res := mkCompressResult "d/c.jpg" 3 1520 true "" in
  _compress_image (PIL := toy_pillow) 5 "d/c.jpg" 2000 30 5 (1 # 2) toy_world
  = Returns res (written "d/c.jpg" buffer toy_world) /\
  exists (data : bytes) (img : ToyImage),
    files toy_world !! "d/c.jpg" = Some data /\
    Image_open data = inr img /\
    let img_format := format_or_JPEG (Image_format img) in
    (succeeded res = true ->
     note res = if (upper img_format =? "JPEG")%string
                then "" else note_converted img_format) /\
    (succeeded res = false -> note res = note_cannot_compress) /\
    note res <> note_best_effort.
Proof.
  intros buffer res.
  assert (H : _compress_image (PIL := toy_pillow) 5 "d/c.jpg" 2000 30 5
                (1 # 2) toy_world
              = Returns res (written "d/c.jpg" buffer toy_world))
    by (vm_compute; reflexivity).
  split; [exact H |].
  exact (result_note_follows_success 2000 30 5 (1 # 2) 5 "d/c.jpg"
           toy_world _ res H).
Defined.

(** X4: a returning call names the file it was given in its result and
    reports as [original_size] the size the file had before the call; no
    other file and no directory is touched. *)
Theorem compress_image_touches_one_file {PIL : Pillow}
    (target_size min_quality quality_step : Z) (resize_step : Q)
    (fuel : nat) (image_path : string) (w w' : World)
    (res : CompressResult) :
  _compress_image fuel image_path target_size min_quality quality_step
    resize_step w = Returns res w' ->
  path res = image_path /\
  (exists data : bytes,
     files w !! image_path = Some data /\ original_size res = nbytes data) /\
  (forall other : string,
     other <> image_path -> files w' !! other = files w !! other) /\
  dirs w' = dirs w.
Proof.
  intros H.
  destruct (compress_image_Returns _ _ _ _ _ _ _ _ _ H)
    as (data & img & working & s & buffer & Hf & _ & _ & _ & _ & _
        & Hw & Hres).
  subst w' res; simpl.
  repeat match goal with |- _ /\ _ => split end; try reflexivity.
  - exists data; auto.
  - intros other Hne; apply lookup_insert_ne; congruence.
Qed.

Lemma compress_image_touches_one_file_witness :
  let buffer := repeat Byte.x00 30 in
  let res := mkCompressResult "d/b.png" 3 30 false note_cannot_compress in
  let w' := written "d/b.png" buffer toy_world in
  _compress_image (PIL := toy_pillow) 20 "d/b.png" 10 30 5 (1 # 2) toy_world
  = Returns res w' /\
  path res = "d/b.png" /\
  (exists data : bytes,
     files toy_world !! "d/b.png" = Some data /\
     original_size res = nbytes data) /\
  (forall other : string,
     other <> "d/b.png" -> files w' !! other = files toy_world !! other) /\
  dirs w' = dirs toy_world.
Proof.
  intros buffer res w'.
  assert (H : _compress_image (PIL := toy_pillow) 20 "d/b.png" 10 30 5
                (1 # 2) toy_world = Returns res w')
    by (vm_compute; reflexivity).
  split; [exact H |].
  exact (compress_image_touches_one_file 10 30 5 (1 # 2) 20 "d/b.png"
           toy_world w' res H).
Defined.

(** ** The directory run *)

Section DirectoryRun.

Context {PIL : Pillow} {PL : Pathlib}.

Variables (target_size min_quality quality_step : Z) (resize_step : Q).

Abbreviation compress fuel image_path :=
  (_compress_image fuel image_path target_size min_quality quality_step
     resize_step).
Abbreviation for_files fuel image_files :=
  (for_image_files fuel image_files target_size min_quality quality_step
     resize_step).

(** Whatever way a call ends, it leaves the other files alone. *)
Lemma compress_image_frame fuel image_path w w' other :
  outcome_world (compress fuel image_path w) = Some w' ->
  other <> image_path -> files w' !! other = files w !! other.
Proof.
  destruct (compress fuel image_path w) as [res w1 | e w1 |] eqn:H;
    simpl; intros Hw Hne; inversion Hw; subst.
  - destruct (compress_image_Returns _ _ _ _ _ _ _ _ _ H)
      as (data & img & working & s & buffer & _ & _ & _ & _ & _ & _
          & Hw' & _).
    subst w'; simpl; apply lookup_insert_ne; congruence.
  - rewrite (compress_image_Raises _ _ _ _ _ _ _ _ _ H); reflexivity.
Qed.

Lemma for_image_files_frame fuel image_files results w w' other :
  outcome_world (for_files fuel image_files results w) = Some w' ->
  other ∉ image_files -> files w' !! other = files w !! other.
Proof.
  revert results w; induction image_files as [| p rest IH];
    intros results w; simpl.
  - intros Hw _; inversion Hw; reflexivity.
  - unfold bind; intros Hw Hnot.
    apply not_elem_of_cons in Hnot as [Hne Hrest].
    destruct (compress fuel p w) as [res w1 | e w1 |] eqn:Hp.
    + rewrite (IH _ _ Hw Hrest).
      apply (compress_image_frame fuel p w w1); [rewrite Hp |]; auto.
    + simpl in Hw; inversion Hw; subst.
      apply (compress_image_frame fuel p w w'); [rewrite Hp |]; auto.
    + discriminate.
Qed.

(** The results come one per file, in the order of the files. *)
Lemma for_image_files_paths fuel image_files results results' w w' :
  for_files fuel image_files results w = Returns results' w' ->
  map path results' = (map path results ++ image_files)%list.
Proof.
  revert results w; induction image_files as [| p rest IH];
    intros results w; simpl.
  - unfold ret; intros H; inversion H; subst.
    rewrite app_nil_r; reflexivity.
  - unfold bind.
    destruct (compress fuel p w) as [res w1 | e w1 |] eqn:Hp;
      try discriminate.
    intros H; rewrite (IH _ _ H), map_app; simpl.
    destruct (compress_image_Returns _ _ _ _ _ _ _ _ _ Hp)
      as (data & img & working & s & buffer & _ & _ & _ & _ & _ & _
          & _ & Hres).
    subst res; simpl.
    rewrite <- app_assoc; reflexivity.
Qed.

(** [compress_directory] either stops at one of its two checks or is the
    [for] loop over the listing. *)
Lemma compress_directory_cases fuel directory recursive w image_files :
  _iter_image_files (resolve directory) recursive w
  = Returns image_files w ->
  let run := compress_directory fuel directory target_size recursive
               min_quality quality_step resize_step w in
  (exists msg, run = Raises (FileNotFoundError msg) w) \/
  (exists msg, run = Raises (NotADirectoryError msg) w) \/
  (resolve directory ∈ dirs w /\ run = for_files fuel image_files [] w).
Proof.
  intros Hlist run; subst run.
  destruct (decide (resolve directory ∈ dirs w)) as [Hdir | Hdir].
  - right; right; split; [exact Hdir |].
    rewrite (compress_directory_listing _ _ _ _ _ _ _ _ Hdir), Hlist.
    reflexivity.
  - unfold compress_directory, bind, path_exists, path_is_dir.
    destruct (files w !! resolve directory) as [data |] eqn:Hf.
    + right; left; eexists.
      rewrite bool_decide_eq_true_2 by (right; eauto); simpl.
      rewrite bool_decide_eq_false_2 by assumption; reflexivity.
    + left; eexists.
      rewrite bool_decide_eq_false_2; [reflexivity |].
      intros [Hin | [b Hb]]; [auto | congruence].
Qed.

End DirectoryRun.

(** X5: however a run of [compress_directory] ends, a file the listing
    does not name has the content it had before the run. *)
Theorem compress_directory_touches_listed_files
    {PIL : Pillow} {PL : Pathlib}
    (target_size min_quality quality_step : Z) (resize_step : Q)
    (fuel : nat) (directory : string) (recursive : bool)
    (image_files : list string) (w w' : World) (other : string) :
  _iter_image_files (resolve directory) recursive w
  = Returns image_files w ->
  outcome_world
    (compress_directory fuel directory target_size recursive min_quality
       quality_step resize_step w) = Some w' ->
  other ∉ image_files ->
  files w' !! other = files w !! other.
Proof.
  intros Hlist Hw Hnot.
  destruct (compress_directory_cases target_size min_quality quality_step
              resize_step fuel directory recursive w image_files Hlist)
    as [[msg Hrun] | [[msg Hrun] | [_ Hrun]]]; rewrite Hrun in Hw.
  - inversion Hw; reflexivity.
  - inversion Hw; reflexivity.
  - eapply for_image_files_frame; eauto.
Qed.

Lemma compress_directory_touches_listed_files_witness :
  let w1 := written "d/b.png" (repeat Byte.x00 30) toy_world in
  _iter_image_files (PL := toy_pathlib) (resolve "d") true toy_world
  = Returns ["d/b.png"; "d/a.png"; "d/one.png"] toy_world /\
  outcome_world
    (compress_directory (PIL := toy_pillow) (PL := toy_pathlib) 20 "d" 100
       true 30 5 (1 # 2) toy_world) = Some w1 /\
  ("d/c.jpg" ∉ ["d/b.png"; "d/a.png"; "d/one.png"]) /\
  files w1 !! "d/c.jpg" = files toy_world !! "d/c.jpg".
Proof.
  intros w1.
  assert (H1 : _iter_image_files (PL := toy_pathlib) (resolve "d") true
                 toy_world
               = Returns ["d/b.png"; "d/a.png"; "d/one.png"] toy_world)
    by reflexivity.
  assert (H2 : outcome_world
                 (compress_directory (PIL := toy_pillow)
                    (PL := toy_pathlib) 20 "d" 100 true 30 5 (1 # 2)
                    toy_world) = Some w1) by (vm_compute; reflexivity).
  assert (H3 : "d/c.jpg" ∉ ["d/b.png"; "d/a.png"; "d/one.png"]).
  { intros Hin; repeat (apply elem_of_cons in Hin as [Hin | Hin];
                        [discriminate |]).
    inversion Hin. }
  repeat (split; [assumption |]).
  exact (compress_directory_touches_listed_files 100 30 5 (1 # 2) 20 "d"
           true _ toy_world w1 "d/c.jpg" H1 H2 H3).
Defined.

(** X6: when the resolved path is neither a directory nor a file,
    [compress_directory] raises [FileNotFoundError] naming the path, before
    anything is listed or written. *)
Theorem compress_directory_missing {PIL : Pillow} {PL : Pathlib}
    (target_size min_quality quality_step : Z) (resize_step : Q)
    (fuel : nat) (directory : string) (recursive : bool) (w : World) :
  resolve directory ∉ dirs w ->
  files w !! resolve directory = None ->
  compress_directory fuel directory target_size recursive min_quality
    quality_step resize_step w
  = Raises (FileNotFoundError ("目录不存在: " ++ resolve directory)) w.
Proof.
  intros Hd Hf.
  unfold compress_directory, bind, path_exists.
  rewrite bool_decide_eq_false_2; [reflexivity |].
  intros [Hin | [b Hb]]; [auto | congruence].
Qed.

Lemma compress_directory_missing_witness :
  (resolve (Pathlib := toy_pathlib) "nowhere" ∉ dirs toy_world) /\
  files toy_world !! resolve "nowhere" = None /\
  compress_directory (PIL := toy_pillow) 20 "nowhere" 100 true 30 5 (1 # 2)
    toy_world
  = Raises (FileNotFoundError ("目录不存在: " ++ "nowhere")) toy_world.
Proof.
  assert (H1 : resolve (Pathlib := toy_pathlib) "nowhere" ∉ dirs toy_world).
  { simpl; intros Hin; apply elem_of_singleton in Hin; discriminate. }
  assert (H2 : files toy_world !! resolve (Pathlib := toy_pathlib) "nowhere"
               = None) by (vm_compute; reflexivity).
  repeat (split; [assumption |]).
  exact (compress_directory_missing 100 30 5 (1 # 2) 20 "nowhere" true
           toy_world H1 H2).
Defined.

(** X7: when the resolved path is a regular file, [compress_directory]
    raises [NotADirectoryError] naming the path, and the file is not
    touched. *)
Theorem compress_directory_regular_file {PIL : Pillow} {PL : Pathlib}
    (target_size min_quality quality_step : Z) (resize_step : Q)
    (fuel : nat) (directory : string) (recursive : bool) (w : World)
    (data : bytes) :
  resolve directory ∉ dirs w ->
  files w !! resolve directory = Some data ->
  compress_directory fuel directory target_size recursive min_quality
    quality_step resize_step w
  = Raises (NotADirectoryError ("路径不是目录: " ++ resolve directory)) w.
Proof.
  intros Hd Hf.
  unfold compress_directory, bind, path_exists, path_is_dir.
  rewrite bool_decide_eq_true_2 by (right; eauto); simpl.
  rewrite bool_decide_eq_false_2 by assumption; reflexivity.
Qed.

Lemma compress_directory_regular_file_witness :
  let data := [Byte.x01; Byte.x04; Byte.x04] in
  (resolve (Pathlib := toy_pathlib) "d/b.png" ∉ dirs toy_world) /\
  files toy_world !! resolve "d/b.png" = Some data /\
  compress_directory (PIL := toy_pillow) 20 "d/b.png" 100 true 30 5 (1 # 2)
    toy_world
  = Raises (NotADirectoryError ("路径不是目录: " ++ "d/b.png")) toy_world.
Proof.
  intros data.
  assert (H1 : resolve (Pathlib := toy_pathlib) "d/b.png" ∉ dirs toy_world).
  { simpl; intros Hin; apply elem_of_singleton in Hin; discriminate. }
  assert (H2 : files toy_world !! resolve (Pathlib := toy_pathlib) "d/b.png"
               = Some data) by (vm_compute; reflexivity).
  repeat (split; [assumption |]).
  exact (compress_directory_regular_file 100 30 5 (1 # 2) 20 "d/b.png" true
           toy_world data H1 H2).
Defined.

(** X8: a run of [compress_directory] that returns gives one result per
    listed file, in the order of the listing, each naming its file. *)
Theorem compress_directory_results_follow_listing
    {PIL : Pillow} {PL : Pathlib}
    (target_size min_quality quality_step : Z) (resize_step : Q)
    (fuel : nat) (directory : string) (recursive : bool)
    (image_files : list string) (results : list CompressResult)
    (w w' : World) :
  _iter_image_files (resolve directory) recursive w
  = Returns image_files w ->
  compress_directory fuel directory target_size recursive min_quality
    quality_step resize_step w = Returns results w' ->
  map path results = image_files /\
  length results = length image_files.
Proof.
  intros Hlist Hrun.
  assert (Hpaths : map path results = image_files).
  { destruct (compress_directory_cases target_size min_quality quality_step
                resize_step fuel directory recursive w image_files Hlist)
      as [[msg Hr] | [[msg Hr] | [_ Hr]]]; rewrite Hr in Hrun;
      try discriminate.
    exact (for_image_files_paths _ _ _ _ _ _ _ _ _ _ Hrun). }
  split; [exact Hpaths |].
  rewrite <- Hpaths, length_map; reflexivity.
Qed.

Lemma compress_directory_results_follow_listing_witness :
  let results :=
    [mkCompressResult "d/c.jpg" 3 30 true "";
     mkCompressResult "d/one.png" 3 95 true (note_converted "PNG")] in
  let w' := written "d/one.png" (repeat Byte.x00 95)
              (written "d/c.jpg" (repeat Byte.x00 30) toy_world) in
  _iter_image_files (PL := toy_pathlib_sound) (resolve "d") true toy_world
  = Returns ["d/c.jpg"; "d/one.png"] toy_world /\
  compress_directory (PIL := toy_pillow) (PL := toy_pathlib_sound) 20 "d"
    100 true 30 5 (1 # 2) toy_world = Returns results w' /\
  map path results = ["d/c.jpg"; "d/one.png"] /\
  length results = length ["d/c.jpg"; "d/one.png"].
Proof.
  intros results w'.
  assert (H1 : _iter_image_files (PL := toy_pathlib_sound) (resolve "d")
                 true toy_world
               = Returns ["d/c.jpg"; "d/one.png"] toy_world)
    by reflexivity.
  assert (H2 : compress_directory (PIL := toy_pillow)
                 (PL := toy_pathlib_sound) 20 "d" 100 true 30 5 (1 # 2)
                 toy_world = Returns results w')
    by (vm_compute; reflexivity).
  repeat (split; [assumption |]).
  exact (compress_directory_results_follow_listing
           (PL := toy_pathlib_sound) 100 30 5 (1 # 2) 20 "d" true _ results
           toy_world w' H1 H2).
Defined.

(** X9: on a directory that exists and lists no image,
    [compress_directory] returns the empty list and leaves the world as it
    is, whatever the request. *)
Theorem compress_directory_no_images {PIL : Pillow} {PL : Pathlib}
    (target_size min_quality quality_step : Z) (resize_step : Q)
    (fuel : nat) (directory : string) (recursive : bool) (w : World) :
  resolve directory ∈ dirs w ->
  _iter_image_files (resolve directory) recursive w = Returns [] w ->
  compress_directory fuel directory target_size recursive min_quality
    quality_step resize_step w = Returns [] w.
Proof.
  intros Hdir Hlist.
  rewrite (compress_directory_listing _ _ _ _ _ _ _ _ Hdir), Hlist.
  reflexivity.
Qed.

Lemma compress_directory_no_images_witness :
  (resolve (Pathlib := toy_pathlib_sound) "d" ∈ dirs toy_world) /\
  _iter_image_files (PL := toy_pathlib_sound) (resolve "d") false toy_world
  = Returns [] toy_world /\
  compress_directory (PIL := toy_pillow) (PL := toy_pathlib_sound) 0 "d" 100
    false 30 5 (1 # 2) toy_world = Returns [] toy_world.
Proof.
  assert (H1 : resolve (Pathlib := toy_pathlib_sound) "d" ∈ dirs toy_world)
    by (vm_compute; reflexivity).
  assert (H2 : _iter_image_files (PL := toy_pathlib_sound) (resolve "d")
                 false toy_world = Returns [] toy_world) by reflexivity.
  repeat (split; [assumption |]).
  exact (compress_directory_no_images 100 30 5 (1 # 2) 0 "d" false toy_world
           H1 H2).
Defined.

(** ** The report *)

(** [round_half_even] gives a nearest integer, the even one on a tie. *)
Lemma round_half_even_spec (a : Z) (b : positive) :
  let n := round_half_even (a # b) in
  2 * Z.abs (n * Z.pos b - a) <= Z.pos b /\
  (2 * Z.abs (n * Z.pos b - a) = Z.pos b -> Z.even n = true).
Proof.
  unfold round_half_even, Qfloor, Qcompare, Qminus, Qplus, Qopp, inject_Z.
  cbn [Qnum Qden].
  rewrite Pos.mul_1_r, Z.mul_1_r, Z.mul_1_l.
  pose proof (Z.div_mod a (Z.pos b) ltac:(lia)) as Hdm.
  pose proof (Z.mod_pos_bound a (Z.pos b) ltac:(lia)) as Hmod.
  set (f := a / Z.pos b) in *.
  set (r := a mod Z.pos b) in *.
  destruct (Z.compare_spec ((a + - f * Z.pos b) * 2) (Z.pos b))
    as [E | L | G].
  - destruct (Z.even f) eqn:Hev.
    + split; [nia | auto].
    + split; [nia |]. intros _; rewrite Z.even_add, Hev; reflexivity.
  - split; nia.
  - split; nia.
Qed.

Lemma round_half_even_inject_Z (z : Z) : round_half_even (inject_Z z) = z.
Proof.
  pose proof (round_half_even_spec z 1) as [Hnear _].
  cbv zeta in Hnear; unfold inject_Z; lia.
Qed.

Lemma format_size_units_here (unit : string) (rest : list string) (x : Q) :
  (x < 1024)%Q ->
  format_size_units (unit :: rest) x = format_0f x ++ unit.
Proof.
  intros Hlt; cbn [format_size_units].
  rewrite (proj1 (Qlt_alt x 1024) Hlt); reflexivity.
Qed.

Lemma format_size_units_next (unit : string) (rest : list string) (x : Q) :
  (1024 <= x)%Q ->
  format_size_units (unit :: rest) x = format_size_units rest (x / 1024)%Q.
Proof.
  intros Hle; cbn [format_size_units].
  destruct (x ?= 1024)%Q eqn:Hc; try reflexivity.
  destruct (Qlt_not_le _ _ (proj2 (Qlt_alt x 1024) Hc) Hle).
Qed.

(** The number printed before a unit of [1024 ^ k] bytes. *)
Lemma format_0f_scaled (size : Z) (x : Q) (scale : positive) :
  Qnum x = size -> Qden x = scale ->
  exists n : Z,
    format_0f x = pretty n /\
    2 * Z.abs (n * Z.pos scale - size) <= Z.pos scale /\
    (2 * Z.abs (n * Z.pos scale - size) = Z.pos scale -> Z.even n = true).
Proof.
  destruct x as [a b]; simpl; intros -> ->.
  exists (round_half_even (size # scale)); split; [reflexivity |].
  apply round_half_even_spec.
Qed.

(** What [_format_size] prints for a size that reaches the unit of index
    [k] (1 for KB, 2 for MB, 3 for GB). *)
Lemma format_size_scaled (size : Z) (k : nat) (unit : string) :
  nth_error ["B"; "KB"; "MB"; "GB"] k = Some unit ->
  1024 ^ Z.of_nat k <= size < 1024 ^ (Z.of_nat k + 1) ->
  exists n : Z,
    _format_size size = pretty n ++ unit /\
    2 * Z.abs (n * 1024 ^ Z.of_nat k - size) <= 1024 ^ Z.of_nat k /\
    (2 * Z.abs (n * 1024 ^ Z.of_nat k - size) = 1024 ^ Z.of_nat k ->
     Z.even n = true).
Proof.
  intros Hunit Hsize; unfold _format_size.
  destruct k as [| [| [| [| k]]]]; simpl in Hunit; inversion Hunit; subst;
    clear Hunit.
  - assert (Hs : 1 <= size < 1024) by exact Hsize.
    rewrite format_size_units_here
      by (unfold Qlt, inject_Z; simpl; lia).
    destruct (format_0f_scaled size (inject_Z size) 1 eq_refl eq_refl)
      as (n & Hn & Hnear & Heven).
    exists n; rewrite Hn; auto.
  - assert (Hs : 1024 <= size < 1048576) by exact Hsize.
    rewrite format_size_units_next
      by (unfold Qle, inject_Z; simpl; lia).
    rewrite format_size_units_here
      by (unfold Qlt, Qdiv, Qmult, Qinv, inject_Z; simpl; lia).
    destruct (format_0f_scaled size (inject_Z size / 1024) 1024
                ltac:(simpl; lia) eq_refl) as (n & Hn & Hnear & Heven).
    exists n; rewrite Hn; auto.
  - assert (Hs : 1048576 <= size < 1073741824) by exact Hsize.
    do 2 rewrite format_size_units_next
      by (unfold Qle, Qdiv, Qmult, Qinv, inject_Z; simpl; lia).
    rewrite format_size_units_here
      by (unfold Qlt, Qdiv, Qmult, Qinv, inject_Z; simpl; lia).
    destruct (format_0f_scaled size (inject_Z size / 1024 / 1024) 1048576
                ltac:(simpl; lia) eq_refl) as (n & Hn & Hnear & Heven).
    exists n; rewrite Hn; auto.
  - assert (Hs : 1073741824 <= size < 1099511627776) by exact Hsize.
    do 3 rewrite format_size_units_next
      by (unfold Qle, Qdiv, Qmult, Qinv, inject_Z; simpl; lia).
    rewrite format_size_units_here
      by (unfold Qlt, Qdiv, Qmult, Qinv, inject_Z; simpl; lia).
    destruct (format_0f_scaled size (inject_Z size / 1024 / 1024 / 1024)
                1073741824 ltac:(simpl; lia) eq_refl)
      as (n & Hn & Hnear & Heven).
    exists n; rewrite Hn; auto.
  - destruct k; discriminate.
Qed.

(** X10: a size from 0 to 1023 bytes is printed as it is, in decimal,
    followed by B. *)
Theorem format_size_bytes (size : Z) :
  0 <= size < 1024 -> _format_size size = pretty size ++ "B".
Proof.
  intros Hsize; unfold _format_size.
  rewrite format_size_units_here by (unfold Qlt, inject_Z; simpl; lia).
  unfold format_0f; rewrite round_half_even_inject_Z; reflexivity.
Qed.

Lemma format_size_bytes_witness :
  0 <= 1023 < 1024 /\ _format_size 1023 = "1023B".
Proof.
  assert (H : 0 <= 1023 < 1024) by lia.
  split; [exact H |].
  exact (format_size_bytes 1023 H).
Defined.

(** X11: a size of at least [1024 ^ k] and below [1024 ^ (k + 1)] bytes,
    for the unit of index [k] among KB, MB and GB, is printed as a number
    from 1 to 1024 followed by that unit; the number is the size in that
    unit rounded to the nearest integer, a tie going to the even one. *)
Theorem format_size_nearest_in_unit (size : Z) (k : nat) (unit : string) :
  nth_error ["B"; "KB"; "MB"; "GB"] k = Some unit ->
  (1 <= k)%nat ->
  1024 ^ Z.of_nat k <= size < 1024 ^ (Z.of_nat k + 1) ->
  exists n : Z,
    _format_size size = pretty n ++ unit /\
    1 <= n <= 1024 /\
    2 * Z.abs (n * 1024 ^ Z.of_nat k - size) <= 1024 ^ Z.of_nat k /\
    (2 * Z.abs (n * 1024 ^ Z.of_nat k - size) = 1024 ^ Z.of_nat k ->
     Z.even n = true).
Proof.
  intros Hunit Hk Hsize.
  destruct (format_size_scaled size k unit Hunit Hsize)
    as (n & Hn & Hnear & Heven).
  exists n; repeat split; try assumption.
  - rewrite Z.pow_add_r, Z.pow_1_r in Hsize by lia.
    assert (0 < 1024 ^ Z.of_nat k) by (apply Z.pow_pos_nonneg; lia).
    nia.
  - rewrite Z.pow_add_r, Z.pow_1_r in Hsize by lia.
    assert (0 < 1024 ^ Z.of_nat k) by (apply Z.pow_pos_nonneg; lia).
    assert (Hlt : n * 1024 ^ Z.of_nat k < 1025 * 1024 ^ Z.of_nat k) by lia.
    apply Z.mul_lt_mono_pos_r in Hlt; lia.
Qed.

Lemma format_size_nearest_in_unit_witness :
  nth_error ["B"; "KB"; "MB"; "GB"] 1 = Some "KB" /\
  (1 <= 1)%nat /\
  1024 ^ Z.of_nat 1 <= 2560 < 1024 ^ (Z.of_nat 1 + 1) /\
  exists n : Z,
    _format_size 2560 = pretty n ++ "KB" /\
    1 <= n <= 1024 /\
    2 * Z.abs (n * 1024 ^ Z.of_nat 1 - 2560) <= 1024 ^ Z.of_nat 1 /\
    (2 * Z.abs (n * 1024 ^ Z.of_nat 1 - 2560) = 1024 ^ Z.of_nat 1 ->
     Z.even n = true).
Proof.
  assert (H1 : nth_error ["B"; "KB"; "MB"; "GB"] 1 = Some "KB")
    by reflexivity.
  assert (H2 : (1 <= 1)%nat) by lia.
  assert (H3 : 1024 ^ Z.of_nat 1 <= 2560 < 1024 ^ (Z.of_nat 1 + 1))
    by (simpl; lia).
  repeat (split; [assumption |]).
  exact (format_size_nearest_in_unit 2560 1 "KB" H1 H2 H3).
Defined.

(** X12: a size within half a unit below the next unit is printed as 1024
    of its own unit, not as 1 of the next: from 1048064 to 1048575 bytes
    the report reads 1024KB. *)
Theorem format_size_prints_1024 (size : Z) (k : nat) (unit : string) :
  nth_error ["B"; "KB"; "MB"; "GB"] k = Some unit ->
  (1 <= k)%nat ->
  2 * 1024 ^ (Z.of_nat k + 1) - 1024 ^ Z.of_nat k <= 2 * size ->
  size < 1024 ^ (Z.of_nat k + 1) ->
  _format_size size = "1024" ++ unit.
Proof.
  intros Hunit Hk Hlow Hhigh.
  assert (Hpos : 2 <= 1024 ^ Z.of_nat k).
  { replace (Z.of_nat k) with (1 + (Z.of_nat k - 1)) by lia.
    rewrite Z.pow_add_r, Z.pow_1_r by lia.
    assert (0 < 1024 ^ (Z.of_nat k - 1)) by (apply Z.pow_pos_nonneg; lia).
    lia. }
  assert (Hnext : 1024 ^ (Z.of_nat k + 1) = 1024 ^ Z.of_nat k * 1024)
    by (rewrite Z.pow_add_r, Z.pow_1_r by lia; reflexivity).
  assert (Hsize : 1024 ^ Z.of_nat k <= size < 1024 ^ (Z.of_nat k + 1))
    by lia.
  destruct (format_size_scaled size k unit Hunit Hsize)
    as (n & Hn & Hnear & Heven).
  assert (Hn1024 : n = 1024).
  { set (U := 1024 ^ Z.of_nat k) in *.
    assert (Hlo : 1023 <= n) by nia.
    assert (Hhi : n <= 1024).
    { assert (Hlt : n * U < 1025 * U) by lia.
      apply Z.mul_lt_mono_pos_r in Hlt; lia. }
    destruct (Z.eq_dec n 1023) as [E | N]; [| lia].
    subst n; exfalso.
    assert (Htie : 2 * Z.abs (1023 * U - size) = U) by lia.
    specialize (Heven Htie); discriminate. }
  rewrite Hn, Hn1024; reflexivity.
Qed.

Lemma format_size_prints_1024_witness :
  nth_error ["B"; "KB"; "MB"; "GB"] 1 = Some "KB" /\
  (1 <= 1)%nat /\
  2 * 1024 ^ (Z.of_nat 1 + 1) - 1024 ^ Z.of_nat 1 <= 2 * 1048064 /\
  1048064 < 1024 ^ (Z.of_nat 1 + 1) /\
  _format_size 1048064 = "1024" ++ "KB".
Proof.
  assert (H1 : nth_error ["B"; "KB"; "MB"; "GB"] 1 = Some "KB")
    by reflexivity.
  assert (H2 : (1 <= 1)%nat) by lia.
  assert (H3 : 2 * 1024 ^ (Z.of_nat 1 + 1) - 1024 ^ Z.of_nat 1
               <= 2 * 1048064) by (simpl; lia).
  assert (H4 : 1048064 < 1024 ^ (Z.of_nat 1 + 1)) by (simpl; lia).
  repeat (split; [assumption |]).
  exact (format_size_prints_1024 1048064 1 "KB" H1 H2 H3 H4).
Defined.

(** X13: TB is the last unit.  A size of at least [1024 ^ 4] bytes (and
    below [2 ^ 53], where the float quotients are exact) is printed as its
    nearest whole number of units of [1024 ^ 4] bytes followed by TB,
    however large that number is. *)
Theorem format_size_terabytes (size : Z) :
  1024 ^ 4 <= size < 2 ^ 53 ->
  exists n : Z,
    _format_size size = pretty n ++ "TB" /\
    1 <= n /\
    2 * Z.abs (n * 1024 ^ 4 - size) <= 1024 ^ 4 /\
    (2 * Z.abs (n * 1024 ^ 4 - size) = 1024 ^ 4 -> Z.even n = true).
Proof.
  intros Hsize.
  assert (Hs : 1099511627776 <= size) by (destruct Hsize as [H _]; exact H).
  unfold _format_size.
  rewrite format_size_units_next by (unfold Qle, inject_Z; simpl; lia).
  do 3 rewrite format_size_units_next
    by (unfold Qle, Qdiv, Qmult, Qinv, inject_Z; simpl; lia).
  destruct (format_0f_scaled size
              (inject_Z size / 1024 / 1024 / 1024 / 1024) 1099511627776
              ltac:(simpl; lia) eq_refl) as (n & Hn & Hnear & Heven).
  exists n; cbn [format_size_units]; rewrite Hn.
  change (1024 ^ 4) with 1099511627776.
  repeat split; try assumption; lia.
Qed.

Lemma format_size_terabytes_witness :
  1024 ^ 4 <= 1125899906842624 < 2 ^ 53 /\
  exists n : Z,
    _format_size 1125899906842624 = pretty n ++ "TB" /\
    1 <= n /\
    2 * Z.abs (n * 1024 ^ 4 - 1125899906842624) <= 1024 ^ 4 /\
    (2 * Z.abs (n * 1024 ^ 4 - 1125899906842624) = 1024 ^ 4 ->
     Z.even n = true).
Proof.
  assert (H : 1024 ^ 4 <= 1125899906842624 < 2 ^ 53) by (simpl; lia).
  split; [exact H |].
  exact (format_size_terabytes 1125899906842624 H).
Defined.

Lemma prefix_append (a b t : string) :
  String.prefix (a ++ b) (a ++ b ++ t) = true.
Proof.
  induction a as [| c a IH]; simpl.
  - induction b as [| c b IHb]; simpl.
    + destruct t; reflexivity.
    + destruct (ascii_dec c c); [exact IHb | congruence].
  - destruct (ascii_dec c c); [exact IH | congruence].
Qed.

(** X14: the report is the target line, reading the target as
    [_format_size] prints it, and then one line per result, in the order
    of the results.  The line of a result reads, in this order: the success
    word when the result succeeded and the not-met word otherwise, the
    path, the original and the final size as [_format_size] prints them,
    and the note, set off by a bar, when there is one. *)
Theorem print_report_line_per_result (results : list CompressResult)
    (target_size : Z) :
  nth_error (_print_report results target_size) 0
  = Some ("目标大小: " ++ _format_size target_size) /\
  length (_print_report results target_size) = S (length results) /\
  forall (i : nat) (res : CompressResult),
    nth_error results i = Some res ->
    exists line : string,
      nth_error (_print_report results target_size) (S i) = Some line /\
      line
      = (if succeeded res then "成功" else "未达标") ++ ": " ++ path res
        ++ " | 原始 " ++ _format_size (original_size res)
        ++ " -> 最终 " ++ _format_size (final_size res)
        ++ (if str_is_empty (note res) then "" else " | " ++ note res) /\
      String.prefix "成功: " line = succeeded res /\
      String.prefix "未达标: " line = negb (succeeded res).
Proof.
  unfold _print_report.
  split; [reflexivity |].
  split; [simpl; rewrite length_map; reflexivity |].
  intros i res Hi.
  exists (report_line res); simpl.
  split; [rewrite nth_error_map, Hi; reflexivity |].
  split; [reflexivity |].
  unfold report_line; destruct (succeeded res); split;
    first [exact (prefix_append "成功" ": " _)
          | exact (prefix_append "未达标" ": " _)
          | reflexivity].
Qed.

Lemma print_report_line_per_result_witness :
  let res := mkCompressResult "d/b.png" 3 30 false note_cannot_compress in
  nth_error [res] 0 = Some res /\
  nth_error (_print_report [res] 100) 0 = Some "目标大小: 100B" /\
  nth_error (_print_report [res] 100) 1
  = Some ("未达标: d/b.png | 原始 3B -> 最终 30B | "
          ++ note_cannot_compress).
Proof.
  intros res.
  assert (H : nth_error [res] 0 = Some res) by reflexivity.
  split; [exact H |].
  destruct (print_report_line_per_result [res] 100) as (Hfirst & _ & Hline).
  split; [exact Hfirst |].
  destruct (Hline 0%nat res H) as (line & Hnth & Heq & _).
  rewrite Hnth, Heq; reflexivity.
Defined.

(** ** The script *)




(** ** Scale factors outside (0,1) *)

Lemma int_mul_unit_factor (n : Z) (f : Q) : (f == 1)%Q -> int_mul n f = n.
Proof.
  intros Hf; rewrite int_mul_unfold.
  assert (Hnum : Qnum f = Z.pos (Qden f))
    by (destruct f; unfold Qeq in Hf; simpl in *; lia).
  rewrite Hnum; apply Z.quot_mul; lia.
Qed.

Lemma int_mul_zero_factor (n : Z) (f : Q) : (f == 0)%Q -> int_mul n f = 0.
Proof.
  intros Hf; rewrite int_mul_unfold.
  assert (Hnum : Qnum f = 0)
    by (destruct f; unfold Qeq in Hf; simpl in *; lia).
  rewrite Hnum, Z.mul_0_r; apply Z.quot_0_l; lia.
Qed.

Lemma unit_factor_pass {PIL : Pillow}
    (target_size min_quality quality_step : Z) (resize_step : Q)
    (working : Image) (n : nat) (s : LoopState) :
  (resize_step == 1)%Q ->
  positive_size working ->
  nth_pass target_size min_quality quality_step resize_step n
    (initial_state working) = Some s ->
  working_img s = working /\
  width s = fst (Image_size working) /\
  height s = snd (Image_size working).
Proof.
  intros Hf [Hw Hh]; revert s; induction n as [| n IH]; simpl; intros s Hp.
  - inversion Hp; subst; simpl; auto.
  - destruct (nth_pass target_size min_quality quality_step resize_step n
                (initial_state working)) as [s1 |]; [| discriminate].
    destruct (loop_body target_size min_quality quality_step resize_step s1)
      as [e | [s2 | s2]] eqn:Hs1; try discriminate.
    inversion Hp; subst.
    destruct (IH s1 eq_refl) as (Hi1 & Hw1 & Hh1).
    destruct (loop_body_Continue _ _ _ _ _ _ Hs1)
      as (b & _ & _ & _ & _ &
          [(_ & _ & Hi & Hw' & Hh') | (_ & _ & Hne & _)]).
    + repeat split; congruence.
    + exfalso; apply Hne.
      rewrite !(int_mul_unit_factor _ _ Hf).
      f_equal; lia.
Qed.

(** X16: with a scale factor equal to 1 the loop never resizes: a run on
    a decoded image of positive size leaves the loop with that image, at
    its size; a buffer over the target is accepted as soon as the quality
    is not above the minimum, with the cannot-compress-further note. *)
Theorem unit_factor_never_resizes {PIL : Pillow}
    (target_size min_quality quality_step : Z) (resize_step : Q)
    (fuel : nat) (working : Image) (s : LoopState) (w w' : World) :
  (resize_step == 1)%Q ->
  positive_size working ->
  while_true target_size min_quality quality_step resize_step fuel
    (initial_state working) w = Returns s w' ->
  working_img s = working /\
  (width s, height s) = Image_size working /\
  exists buffer : bytes,
    last_buffer s = Some buffer /\
    (target_size < nbytes buffer ->
     quality s <= min_quality /\ loop_note s = note_cannot_compress).
Proof.
  intros Hf Hpos Hl.
  destruct (while_true_Returns_exit _ _ _ _ _ _ _ _ _ Hl)
    as (n & s1 & buffer & Hp & Hi & Hw & Hh & _ & _ & Hb & Hcase).
  destruct (unit_factor_pass _ _ _ _ _ _ _ Hf Hpos Hp) as (Hi1 & Hw1 & Hh1).
  split; [congruence |].
  split.
  - rewrite Hw, Hh, Hw1, Hh1; destruct (Image_size working); reflexivity.
  - exists buffer; split; [exact Hb |].
    intros Hover.
    destruct Hcase as [[Hfit _] | (_ & Hq & _ & _ & Hn)]; [lia | auto].
Qed.

Lemma unit_factor_never_resizes_witness :
  let s := mkLoopState (PIL := toy_pillow) toy_4x4 4 4 30
             (Some (repeat Byte.x00 480)) note_cannot_compress in
  (1 == 1)%Q /\
  positive_size toy_4x4 /\
  while_true 100 30 5 1 20 (initial_state toy_4x4) toy_world
  = Returns s toy_world /\
  working_img s = toy_4x4 /\
  (width s, height s) = Image_size toy_4x4.
Proof.
  intros s.
  assert (H1 : (1 == 1)%Q) by reflexivity.
  assert (H2 : positive_size (PIL := toy_pillow) toy_4x4)
    by (unfold positive_size; simpl; lia).
  assert (H3 : while_true 100 30 5 1 20 (initial_state toy_4x4) toy_world
               = Returns s toy_world) by (vm_compute; reflexivity).
  repeat (split; [assumption |]).
  pose proof (unit_factor_never_resizes 100 30 5 1 20 toy_4x4 s toy_world
                toy_world H1 H2 H3) as (Ha & Hb & _).
  split; assumption.
Defined.

(** X17: with a scale factor of 0, the resize step asks for a 1x1 image
    whatever the current dimensions (taken below [2 ^ 53], where the
    conversion of the dimension to a float is exact and its product with
    0.0 is 0.0): after one resize the working image is a single pixel. *)
Theorem zero_factor_collapses {PIL : Pillow}
    (target_size min_quality quality_step : Z) (resize_step : Q)
    (s s' : LoopState) :
  resize_returns_requested_size PIL ->
  (resize_step == 0)%Q ->
  0 <= width s < 2 ^ 53 -> 0 <= height s < 2 ^ 53 ->
  quality s <= min_quality ->
  loop_body target_size min_quality quality_step resize_step s
  = inr (Continue s') ->
  Image_resize (working_img s) (1, 1) LANCZOS = inr (working_img s') /\
  Image_size (working_img s') = (1, 1) /\ width s' = 1 /\ height s' = 1.
Proof.
  intros Hres Hf Hw Hh Hq Hs.
  destruct (loop_body_Continue _ _ _ _ _ _ Hs)
    as (b & _ & _ & _ & _ &
        [(Hgt & _) | (_ & _ & _ & Hresize & Hw' & Hh')]); [lia |].
  rewrite !(int_mul_zero_factor _ _ Hf) in Hresize.
  change (Z.max 1 0) with 1 in Hresize.
  split; [exact Hresize |].
  apply Hres in Hresize; [| lia | lia].
  rewrite Hresize in Hw', Hh'; simpl in *; auto.
Qed.

Lemma zero_factor_collapses_witness :
  let s := mkLoopState (PIL := toy_pillow) toy_4x4 4 4 30 None "" in
  let s' := mkLoopState (PIL := toy_pillow) (mkToyImage 1 1 (Some "PNG"))
              1 1 30 None "" in
  resize_returns_requested_size toy_pillow /\
  (0 == 0)%Q /\
  0 <= width s < 2 ^ 53 /\ 0 <= height s < 2 ^ 53 /\
  quality s <= 30 /\
  loop_body 100 30 5 0 s = inr (Continue s') /\
  Image_resize (working_img s) (1, 1) LANCZOS = inr (working_img s') /\
  Image_size (working_img s') = (1, 1) /\ width s' = 1 /\ height s' = 1.
Proof.
  intros s s'.
  assert (H1 : (0 == 0)%Q) by reflexivity.
  assert (H2 : 0 <= width s < 2 ^ 53) by (simpl; lia).
  assert (H3 : 0 <= height s < 2 ^ 53) by (simpl; lia).
  assert (H4 : quality s <= 30) by (simpl; lia).
  assert (H5 : loop_body 100 30 5 0 s = inr (Continue s'))
    by (vm_compute; reflexivity).
  split; [exact toy_resize_contract |].
  repeat (split; [assumption |]).
  exact (zero_factor_collapses 100 30 5 0 s s' toy_resize_contract
           H1 H2 H3 H4 H5).
Defined.

(** ** The order of the search *)

Lemma nth_pass_earlier {PIL : Pillow}
    (target_size min_quality quality_step : Z) (resize_step : Q)
    (n : nat) (s0 s : LoopState) :
  nth_pass target_size min_quality quality_step resize_step n s0 = Some s ->
  forall m : nat,
    (m < n)%nat ->
    exists sm sm' : LoopState,
      nth_pass target_size min_quality quality_step resize_step m s0
      = Some sm /\
      loop_body target_size min_quality quality_step resize_step sm
      = inr (Continue sm').
Proof.
  revert s; induction n as [| n IH]; intros s Hp m Hm; [lia |].
  simpl in Hp.
  destruct (nth_pass target_size min_quality quality_step resize_step n s0)
    as [s1 |] eqn:Hn; [| discriminate].
  destruct (loop_body target_size min_quality quality_step resize_step s1)
    as [e | [s2 | s2]] eqn:Hs1; try discriminate.
  destruct (Nat.eq_dec m n) as [-> | Hne].
  - exists s1, s2; auto.
  - apply (IH s1 eq_refl); lia.
Qed.

(** X18: the loop accepts the first buffer of its search that fits.  When
    a run leaves the loop after [n] passes that went round again, each of
    those passes had encoded its working image at its quality into a
    buffer over the target. *)
Theorem earlier_passes_were_over_target {PIL : Pillow}
    (target_size min_quality quality_step : Z) (resize_step : Q)
    (fuel : nat) (s0 s : LoopState) (w w' : World) :
  while_true target_size min_quality quality_step resize_step fuel s0 w
  = Returns s w' ->
  exists (n : nat) (s1 : LoopState),
    nth_pass target_size min_quality quality_step resize_step n s0
    = Some s1 /\
    loop_body target_size min_quality quality_step resize_step s1
    = inr (Break s) /\
    forall m : nat,
      (m < n)%nat ->
      exists (sm : LoopState) (buffer : bytes),
        nth_pass target_size min_quality quality_step resize_step m s0
        = Some sm /\
        _save_to_buffer (working_img sm) "JPEG" (quality sm) = inr buffer /\
        target_size < nbytes buffer.
Proof.
  intros Hl.
  destruct (while_true_Returns_pass _ _ _ _ _ _ _ _ _ Hl)
    as (n & s1 & _ & Hp & Hb).
  exists n, s1; repeat (split; [assumption |]).
  intros m Hm.
  destruct (nth_pass_earlier _ _ _ _ _ _ _ Hp m Hm) as (sm & sm' & Hpm & Hc).
  destruct (loop_body_Continue _ _ _ _ _ _ Hc) as (b & Hsave & Hover & _).
  exists sm, b; auto.
Qed.

Lemma earlier_passes_were_over_target_witness :
  let s := mkLoopState (PIL := toy_pillow) (mkToyImage 1 1 (Some "PNG"))
             1 1 30 (Some (repeat Byte.x00 30)) "" in
  while_true 100 30 5 (1 # 2) 20 (initial_state toy_4x4) toy_world
  = Returns s toy_world /\
  exists (n : nat) (s1 : LoopState),
    nth_pass 100 30 5 (1 # 2) n (initial_state toy_4x4) = Some s1 /\
    loop_body 100 30 5 (1 # 2) s1 = inr (Break s) /\
    forall m : nat,
      (m < n)%nat ->
      exists (sm : LoopState) (buffer : bytes),
        nth_pass 100 30 5 (1 # 2) m (initial_state toy_4x4) = Some sm /\
        _save_to_buffer (working_img sm) "JPEG" (quality sm) = inr buffer /\
        100 < nbytes buffer.
Proof.
  intros s.
  assert (H : while_true 100 30 5 (1 # 2) 20 (initial_state toy_4x4)
                toy_world = Returns s toy_world)
    by (vm_compute; reflexivity).
  split; [exact H |].
  exact (earlier_passes_were_over_target 100 30 5 (1 # 2) 20 _ s toy_world
           toy_world H).
Defined.

(** X19: with a minimum quality of 95 or more the loop never lowers the
    quality: every pass encodes at quality 95, and every pass that goes
    round again is a resize. *)
Theorem high_minimum_keeps_quality_95 {PIL : Pillow}
    (target_size min_quality quality_step : Z) (resize_step : Q)
    (working : Image) (n : nat) (s : LoopState) :
  95 <= min_quality ->
  nth_pass target_size min_quality quality_step resize_step n
    (initial_state working) = Some s ->
  quality s = 95 /\
  forall s' : LoopState,
    loop_body target_size min_quality quality_step resize_step s
    = inr (Continue s') ->
    quality s' = 95 /\
    exists new_size : Z * Z,
      new_size <> (width s, height s) /\
      Image_resize (working_img s) new_size LANCZOS = inr (working_img s').
Proof.
  intros Hmin; revert s; induction n as [| n IH]; simpl; intros s Hp.
  - inversion Hp; subst; simpl.
    split; [reflexivity |].
    intros s' Hs.
    destruct (loop_body_Continue _ _ _ _ _ _ Hs)
      as (b & _ & _ & _ & _ &
          [(Hgt & _) | (_ & Hq' & Hne & Hres & _)]);
      simpl in *; [lia |].
    split; [lia | eauto].
  - destruct (nth_pass target_size min_quality quality_step resize_step n
                (initial_state working)) as [s1 |]; [| discriminate].
    destruct (loop_body target_size min_quality quality_step resize_step s1)
      as [e | [s2 | s2]] eqn:Hs1; try discriminate.
    inversion Hp; subst.
    destruct (IH s1 eq_refl) as [Hq1 Hnext].
    destruct (Hnext s Hs1) as [Hq _].
    split; [exact Hq |].
    intros s' Hs.
    destruct (loop_body_Continue _ _ _ _ _ _ Hs)
      as (b & _ & _ & _ & _ &
          [(Hgt & _) | (_ & Hq' & Hne & Hres & _)]); [lia |].
    split; [lia | eauto].
Qed.

Lemma high_minimum_keeps_quality_95_witness :
  let s := mkLoopState (PIL := toy_pillow) (mkToyImage 2 2 (Some "PNG"))
             2 2 95 None "" in
  95 <= 95 /\
  nth_pass 100 95 5 (1 # 2) 1 (initial_state toy_4x4) = Some s /\
  quality s = 95.
Proof.
  intros s.
  assert (H1 : 95 <= 95) by lia.
  assert (H2 : nth_pass 100 95 5 (1 # 2) 1 (initial_state toy_4x4) = Some s)
    by (vm_compute; reflexivity).
  repeat (split; [assumption |]).
  exact (proj1 (high_minimum_keeps_quality_95 100 95 5 (1 # 2) toy_4x4 1 s
                  H1 H2)).
Defined.
